(** * tmpssh: temporary SSH access for the current user

    A shallow embedding of [tmpssh.py] and the verification of its
    specification.  The script is glue around the operating system: it reads
    and writes files, changes the umask, fetches URLs, runs [ssh-keygen] and
    finally replaces itself with [sshd].  The embedding threads an explicit
    [World] through every call and records each primitive operation in a
    trace, so that statements such as "no network fetch" or "the server is
    never launched" are statements about that trace. *)

From Stdlib Require Import ZArith String Ascii List Lia DecimalString.
From stdpp Require Import gmap strings list.

Local Open Scope string_scope.
Local Open Scope Z_scope.
Local Open Scope list_scope.

(** ** Python values and paths *)

(** A key source is either a [str] (what argparse stores for [-f/--file],
    which has no [type=]) or a [pathlib.Path] (what [cache_dir / name],
    [Path.home() / ...] and [Path(tmpfile.name)] build).  The two are kept
    apart because they do not have the same methods. *)
Inductive source : Type :=
| SrcStr (s : string)
| SrcPath (p : string).

(** [str(x)] *)
Definition str (x : source) : string :=
  match x with
  | SrcStr s => s
  | SrcPath p => p
  end.

(** [s.split('/')] *)
Fixpoint split_slash (s : string) : list string :=
  match s with
  | EmptyString => [EmptyString]
  | String c rest =>
      if Ascii.eqb c "/" then EmptyString :: split_slash rest
      else match split_slash rest with
           | part :: parts => String c part :: parts
           | [] => [String c EmptyString]
           end
  end.

Fixpoint leading_slashes (s : string) : nat :=
  match s with
  | String c rest => if Ascii.eqb c "/" then S (leading_slashes rest) else O
  | EmptyString => O
  end.

Definition is_part (part : string) : bool :=
  negb (String.eqb part EmptyString) && negb (String.eqb part ".").

(** [str(Path(s))]: pathlib's normal form of a POSIX path.  Repeated and
    trailing separators and [.] components disappear, exactly two leading
    slashes are kept, and the empty path is [.]. *)
Definition Path (s : string) : string :=
  let root :=
    match leading_slashes s with
    | O => EmptyString
    | 2%nat => "//"
    | _ => "/"
    end in
  match String.concat "/" (List.filter is_part (split_slash s)) with
  | EmptyString =>
      match root with
      | EmptyString => "."
      | _ => root
      end
  | parts => root +:+ parts
  end.

Fixpoint ends_with_slash (s : string) : bool :=
  match s with
  | EmptyString => false
  | String c EmptyString => Ascii.eqb c "/"
  | String _ rest => ends_with_slash rest
  end.

(** [a / b], for [a] the string of a [Path] and [b] a relative path in
    normal form: the current directory [.] disappears and a root keeps its
    own separator. *)
Definition path_join (a b : string) : string :=
  if String.eqb a "." then b
  else if ends_with_slash a then a +:+ b
  else a +:+ "/" +:+ b.

(** A path to which [/ b] just appends a separator and [b]. *)
Definition plain (a : string) : bool :=
  negb (String.eqb a ".") && negb (ends_with_slash a).

(** The prefixes of a path that end just before a separator. *)
Fixpoint parents_from (pre s : string) : list string :=
  match s with
  | EmptyString => []
  | String c rest =>
      (if Ascii.eqb c "/" then [pre] else [])
      ++ parents_from (pre +:+ String c EmptyString) rest
  end.

(** The directories above a path, outermost first; the root and the
    current directory, which always exist, are left out. *)
Definition ancestors (p : string) : list string :=
  List.filter
    (fun a => negb (String.eqb a EmptyString) && negb (ends_with_slash a))
    (parents_from EmptyString p).

(** The value of [parsed_args.port]: the integer default or the string
    given on the command line. *)
Inductive port_value : Type :=
| PortInt (n : Z)
| PortStr (s : string).

Definition str_of_Z (n : Z) : string := NilEmpty.string_of_int (Z.to_int n).

Definition str_port (p : port_value) : string :=
  match p with
  | PortInt n => str_of_Z n
  | PortStr s => s
  end.

(** The namespace returned by [parser.parse_args()].  The [append] actions
    leave [None] when the flag never occurs. *)
Record Namespace : Type := mkNamespace {
  ns_file : option (list string);
  ns_url : option (list string);
  ns_github : option (list string);
  ns_port : port_value;
  ns_quiet : bool
}.

(** The defaults of [create_parser]. *)
Definition create_parser : Namespace :=
  {| ns_file := None; ns_url := None; ns_github := None;
     ns_port := PortInt 2222; ns_quiet := false |}.

(** [x or []] *)
Definition or_empty {A} (x : option (list A)) : list A :=
  match x with
  | Some l => l
  | None => []
  end.

(** ** The world *)

Inductive node : Type :=
| File (mode : Z) (data : list Byte.byte)
| Dir (mode : Z).

Inductive event : Type :=
| EvGet (url : string)                 (* requests.get *)
| EvRedirect (url : string)            (* a GET made while following a redirect *)
| EvMkdir (p : string) (mode : Z)      (* Path.mkdir *)
| EvUmask (m : Z)                      (* os.umask *)
| EvStat (p : string)                  (* Path.exists *)
| EvOpenW (p : string)                 (* Path.open('w') *)
| EvRead (p : string)                  (* Path.read_bytes *)
| EvMkstemp (p : string)               (* tempfile.NamedTemporaryFile *)
| EvRun (argv : list string)           (* subprocess.run *)
| EvPrintArgv (argv : list (option string))
| EvPrint (s : string)
| EvStderr (s : string)
| EvExecv (path : string) (argv : list (option string)).

Record World : Type := mkWorld {
  fs : gmap string node;     (* the file system, keyed by path *)
  umask : Z;                 (* the process umask *)
  rng : nat;                 (* position in tempfile's name sequence *)
  trace : list event         (* operations performed so far, oldest first *)
}.

Inductive exn : Type :=
| HTTPError (status : Z)
| RequestException
| SystemExit (code : Z)
| AttributeError
| TypeError
| KeyError
| FileNotFoundError (p : string)
| FileExistsError (p : string)
| IsADirectoryError (p : string)
| NotADirectoryError (p : string)
| PermissionError (p : string)
| UnicodeEncodeError
| OSError
| CalledProcessError (rc : Z).

(** A call returns, raises, or never comes back because [os.execv] has
    replaced the process image. *)
Inductive result (A : Type) : Type :=
| Ok (a : A) (w : World)
| Raise (e : exn) (w : World)
| Replaced (w : World).
Arguments Ok {A} a w.
Arguments Raise {A} e w.
Arguments Replaced {A} w.

Definition M (A : Type) : Type := World -> result A.

Definition ret {A} (a : A) : M A := fun w => Ok a w.

Definition bind {A B} (m : M A) (k : A -> M B) : M B :=
  fun w =>
    match m w with
    | Ok a w' => k a w'
    | Raise e w' => Raise e w'
    | Replaced w' => Replaced w'
    end.

Definition raise {A} (e : exn) : M A := fun w => Raise e w.

Notation "x <- m ;; k" := (bind m (fun x => k))
  (at level 100, m at next level, right associativity).
Notation "m ;;; k" := (bind m (fun _ => k))
  (at level 100, right associativity).

Definition final_world {A} (r : result A) : World :=
  match r with
  | Ok _ w | Raise _ w | Replaced w => w
  end.

Definition log (e : event) (w : World) : World :=
  {| fs := fs w; umask := umask w; rng := rng w; trace := trace w ++ [e] |}.

Definition set_fs (f : gmap string node) (w : World) : World :=
  {| fs := f; umask := umask w; rng := rng w; trace := trace w |}.

Definition set_umask (m : Z) (w : World) : World :=
  {| fs := fs w; umask := m; rng := rng w; trace := trace w |}.

Definition set_rng (n : nat) (w : World) : World :=
  {| fs := fs w; umask := umask w; rng := n; trace := trace w |}.

Definition log_all (evs : list event) (w : World) : World :=
  {| fs := fs w; umask := umask w; rng := rng w; trace := trace w ++ evs |}.

Definition emit (e : event) : M unit := fun w => Ok tt (log e w).

(** ** The environment of a run *)

Inductive http_result : Type :=
| Response (status_code : Z) (text : string)
| NoResponse.

(** What can go wrong when a file is opened for writing and written:
    the open is refused, or the write stops after [n] bytes (disk full). *)
Inductive io_fault : Type :=
| OpenDenied
| WriteCut (n : nat).

(** What the run reads from outside and cannot influence.  [net],
    [spawn], [write_fault] and [can_exec] take the length of the trace as
    the time of the call, so nothing outside is assumed to answer twice
    alike.  [net] gives, for a call of [requests.get], the URLs requested
    in turn while following redirects and the final answer. *)
Record Env : Type := mkEnv {
  xdg_state_home : option string;   (* os.environ.get('XDG_STATE_HOME') *)
  home : string;                    (* str(Path.home()) *)
  pw_name : option string;          (* pwd.getpwuid(os.getuid())[0] *)
  which : string -> option string;  (* shutil.which *)
  net : nat -> string -> list string * http_result;
  spawn : nat -> list string -> gmap string node ->
          option (Z * gmap string node);
  tmp_name : nat -> string;         (* tempfile's candidate paths *)
  locale_encode : string -> option (list Byte.byte);
                                    (* str.encode in the locale encoding *)
  write_fault : nat -> string -> option io_fault;
  can_exec : nat -> string -> bool  (* whether execve accepts the file *)
}.

(** Permission bits, written in octal in the source. *)
Definition o777 : Z := 0x1ff.
Definition o700 : Z := 0x1c0.
Definition o666 : Z := 0x1b6.
Definition o644 : Z := 0x1a4.
Definition o600 : Z := 0x180.
Definition o077 : Z := 0x3f.
Definition o022 : Z := 0x12.
Definition o004 : Z := 0x4.

(** [tempfile.TMP_MAX] *)
Definition TMP_MAX : nat := Z.to_nat 10000.

Section Program.

(** [hashlib.sha3_256(s.encode()).hexdigest()]; the digest itself lives in
    the Python standard library and is left abstract. *)
Variable sha3_256 : string -> string.
Variable env : Env.

(** *** Module-level constants *)

Definition GITHUB_KEYS_ENDPOINT (username : string) : string :=
  "https://github.com/" +:+ username +:+ ".keys".

Definition STATE_DIR : string :=
  path_join
    (match xdg_state_home env with
     | Some d => Path d
     | None => path_join (home env) ".local/state"
     end)
    "tmpssh".

(** *** Operating-system and library primitives *)

(** [requests.get(url)]: one call, which sends a GET for [url] and one
    more for each redirect it follows; the result is the final response
    (status and text) or an exception of the [requests] package. *)
Definition requests_get (url : string) : M (Z * string) :=
  fun w =>
    let w1 :=
      log_all (map EvRedirect (fst (net env (length (trace w)) url)))
        (log (EvGet url) w) in
    match snd (net env (length (trace w)) url) with
    | Response status body => Ok (status, body) w1
    | NoResponse => Raise RequestException w1
    end.

(** [Response.raise_for_status()]: raises for the 4xx and 5xx codes. *)
Definition raise_for_status (r : Z * string) : M unit :=
  if (400 <=? fst r) && (fst r <? 600) then raise (HTTPError (fst r))
  else ret tt.

(** What [parents=True] does above the directory to make: a missing
    ancestor is created with mode [0o777 & ~umask]; a regular file among
    them stops everything. *)
Fixpoint make_parents (above : list string) (mask : Z)
    (f : gmap string node) : option (gmap string node) :=
  match above with
  | [] => Some f
  | a :: rest =>
      match f !! a with
      | Some (Dir _) => make_parents rest mask f
      | Some (File _ _) => None
      | None => make_parents rest mask (<[a := Dir (Z.ldiff o777 mask)]> f)
      end
  end.

(** [p.mkdir(mode=mode, exist_ok=True, parents=True)].  An existing
    directory is left alone and a regular file at [p] is an error.
    Otherwise the missing ancestors are made first and [p] is created
    with [mode & ~umask]; under a regular file nothing is created and
    [os.mkdir] fails with [NotADirectoryError].  The file system is a
    table of paths: an entry is taken to have its ancestors. *)
Definition mkdir (p : string) (mode : Z) : M unit :=
  fun w =>
    let w1 := log (EvMkdir p mode) w in
    match fs w !! p with
    | Some (Dir _) => Ok tt w1
    | Some (File _ _) => Raise (FileExistsError p) w1
    | None =>
        match make_parents (ancestors p) (umask w) (fs w) with
        | Some f =>
            Ok tt (set_fs (<[p := Dir (Z.ldiff mode (umask w))]> f) w1)
        | None => Raise (NotADirectoryError p) w1
        end
    end.

(** [p.exists()] *)
Definition path_exists (p : string) : M bool :=
  fun w => Ok (bool_decide (is_Some (fs w !! p))) (log (EvStat p) w).

(** [os.umask(m)]: installs [m], returns the previous mask. *)
Definition os_umask (m : Z) : M Z :=
  fun w => Ok (umask w) (set_umask m (log (EvUmask m) w)).

(** [with p.open('w') as fp: fp.write(content)].  The open truncates an
    existing file or creates a missing one with mode [0o666 & ~umask],
    unless it is refused.  The text is then encoded in the locale encoding
    and written; when the encoding fails the file stays empty, and when
    the disk fills up it keeps what was written. *)
Definition open_w_write (p : string) (content : string) : M unit :=
  fun w =>
    let w1 := log (EvOpenW p) w in
    let mode :=
      match fs w !! p with
      | Some (File m _) => m
      | _ => Z.ldiff o666 (umask w)
      end in
    let store data := set_fs (<[p := File mode data]> (fs w)) w1 in
    match fs w !! p with
    | Some (Dir _) => Raise (IsADirectoryError p) w1
    | _ =>
        match write_fault env (length (trace w)) p with
        | Some OpenDenied => Raise (PermissionError p) w1
        | fault =>
            match locale_encode env content with
            | None => Raise UnicodeEncodeError (store [])
            | Some data =>
                match fault with
                | Some (WriteCut n) => Raise OSError (store (take n data))
                | _ => Ok tt (store data)
                end
            end
        end
    end.

(** [file.read_bytes()]: a method of [Path]; a [str] has no such
    attribute. *)
Definition read_bytes (file : source) : M (list Byte.byte) :=
  match file with
  | SrcStr _ => raise AttributeError
  | SrcPath p =>
      fun w =>
        let w1 := log (EvRead p) w in
        match fs w !! p with
        | Some (File _ data) => Ok data w1
        | Some (Dir _) => Raise (IsADirectoryError p) w1
        | None => Raise (FileNotFoundError p) w1
        end
  end.

(** [tempfile]'s search for an unused name: up to [TMP_MAX] candidates are
    tried with an exclusive create of mode [0o600], to which the umask
    applies. *)
Fixpoint mkstemp_inner (fuel : nat) : M string :=
  fun w =>
    match fuel with
    | O => Raise (FileExistsError "No usable temporary file name found") w
    | S fuel' =>
        let name := tmp_name env (rng w) in
        let w1 := set_rng (S (rng w)) w in
        match fs w !! name with
        | Some _ => mkstemp_inner fuel' w1
        | None =>
            Ok name
               (log (EvMkstemp name)
                  (set_fs (<[name := File (Z.ldiff o600 (umask w)) []]> (fs w))
                     w1))
        end
    end.

(** [tempfile.NamedTemporaryFile(..., delete=False)]; the result is
    [tmpfile.name]. *)
Definition NamedTemporaryFile : M string := mkstemp_inner TMP_MAX.

Definition append_data (data : list Byte.byte) (n : node) : node :=
  match n with
  | File m old => File m (old ++ data)
  | Dir m => Dir m
  end.

(** [tmpfile.write(data)] on the open temporary file. *)
Definition tmpfile_write (tmp : string) (data : list Byte.byte) : M unit :=
  fun w => Ok tt (set_fs (alter (append_data data) tmp (fs w)) w).

(** [tmpfile.write(text)] on a temporary file opened in text mode, up to
    its close: the text goes through the locale encoding, and a disk that
    fills up cuts the write short. *)
Definition tmpfile_write_text (tmp : string) (text : string) : M unit :=
  match locale_encode env text with
  | Some data =>
      fun w =>
        match write_fault env (length (trace w)) tmp with
        | Some (WriteCut n) =>
            Raise OSError
              (set_fs (alter (append_data (take n data)) tmp (fs w)) w)
        | _ => tmpfile_write tmp data w
        end
  | None => raise UnicodeEncodeError
  end.

(** [subprocess.run(argv)]: the return code of the child, or
    [FileNotFoundError] when the program cannot be started. *)
Definition subprocess_run (argv : list string) : M Z :=
  fun w =>
    let w1 := log (EvRun argv) w in
    match spawn env (length (trace w)) argv (fs w) with
    | Some (rc, fs') => Ok rc (set_fs fs' w1)
    | None => Raise (FileNotFoundError (hd EmptyString argv)) w1
    end.

(** [CompletedProcess.check_returncode()] *)
Definition check_returncode (rc : Z) : M unit :=
  if rc =? 0 then ret tt else raise (CalledProcessError rc).

(** [parser.error(message)]: prints the usage and the message to stderr and
    exits with status 2. *)
Definition parser_error {A} (message : string) : M A :=
  fun w => Raise (SystemExit 2) (log (EvStderr message) w).

(** [os.execv(path, argv)]: does not return when the file is executed; a
    [None] path is rejected with [TypeError] before anything is tried, and
    a file the kernel refuses to execute gives [OSError]. *)
Definition os_execv {A} (path : option string) (argv : list (option string))
  : M A :=
  fun w =>
    match path with
    | Some p =>
        if can_exec env (length (trace w)) p
        then Replaced (log (EvExecv p argv) w)
        else Raise OSError w
    | None => Raise TypeError w
    end.

(** *** The program *)

(** [do_get], lines 36-39. *)
Definition do_get (url : string) : M string :=
  r <- requests_get url ;;
  raise_for_status r ;;;
  ret (snd r).

(** [ensure_cache_dir], lines 41-44. *)
Definition ensure_cache_dir : M string :=
  let cache_dir := path_join STATE_DIR "pubkeys" in
  mkdir cache_dir o700 ;;;
  ret cache_dir.

(** [get_and_save_url], lines 46-49. *)
Definition get_and_save_url (file : string) (url : string) : M unit :=
  content <- do_get url ;;
  open_w_write file content.

(** The cache slot of a URL: [cache_dir / sha3_256(url).hexdigest()],
    lines 63-64. *)
Definition cache_file_path (cache_dir url : string) : string :=
  path_join cache_dir (sha3_256 url).

(** One turn of the loop over [urls], lines 63-66; its value is what line
    67 appends to [sources]. *)
Definition resolve_url (cache_dir url : string) : M source :=
  found <- path_exists (cache_file_path cache_dir url) ;;
  (if negb found then get_and_save_url (cache_file_path cache_dir url) url
   else ret tt) ;;;
  ret (SrcPath (cache_file_path cache_dir url)).

(** The loop of lines 62-67. *)
Fixpoint resolve_urls (cache_dir : string) (urls : list string)
    (sources : list source) : M (list source) :=
  match urls with
  | [] => ret sources
  | url :: rest =>
      p <- resolve_url cache_dir url ;;
      resolve_urls cache_dir rest (sources ++ [p])
  end.

(** [urls] as built by lines 55-57: the [--url] values, then one URL per
    [--github] user. *)
Definition all_urls (parsed_args : Namespace) : list string :=
  or_empty (ns_url parsed_args)
  ++ map GITHUB_KEYS_ENDPOINT (or_empty (ns_github parsed_args)).

(** First half of [make_authorized_keys], lines 53-68: the list
    [sources] when line 70 is reached. *)
Definition resolve_sources (parsed_args : Namespace) : M (list source) :=
  let sources := map SrcStr (or_empty (ns_file parsed_args)) in
  let urls := all_urls parsed_args in
  match urls with
  | [] => ret sources
  | _ :: _ =>
      cache_dir <- ensure_cache_dir ;;
      prev_mask <- os_umask o022 ;;
      sources <- resolve_urls cache_dir urls sources ;;
      os_umask prev_mask ;;;
      ret sources
  end.

(** The loop of [merge_files], lines 93-94. *)
Fixpoint merge_loop (tmpfile : string) (files : list source) : M unit :=
  match files with
  | [] => ret tt
  | file :: rest =>
      data <- read_bytes file ;;
      tmpfile_write tmpfile data ;;;
      merge_loop tmpfile rest
  end.

(** [merge_files], lines 91-95. *)
Definition merge_files (files : list source) : M source :=
  tmpfile <- NamedTemporaryFile ;;
  merge_loop tmpfile files ;;;
  ret (SrcPath tmpfile).

Definition default_authorized_keys : string :=
  path_join (home env) ".ssh/authorized_keys".

(** Second half of [make_authorized_keys], lines 70-80. *)
Definition select_authorized_keys (sources : list source) : M source :=
  match sources with
  | [] =>
      found <- path_exists default_authorized_keys ;;
      if found : bool then ret (SrcPath default_authorized_keys)
      else parser_error
             "No key sources given, and ~/.ssh/authorized_keys does not exist."
  | [only] => ret only
  | _ => merge_files sources
  end.

(** [make_authorized_keys], lines 52-80. *)
Definition make_authorized_keys (parsed_args : Namespace) : M source :=
  sources <- resolve_sources parsed_args ;;
  select_authorized_keys sources.

Definition TAB : string := String "009"%char EmptyString.
Definition LF : string := String "010"%char EmptyString.

(** [generate_sshd_config], lines 82-89. *)
Definition generate_sshd_config (authorized_keys : source) (user : string)
  : string :=
  LF +:+ "AuthorizedKeysFile" +:+ TAB +:+ str authorized_keys +:+ LF
  +:+ "AllowUsers" +:+ TAB +:+ user +:+ LF
  +:+ "PubkeyAuthentication" +:+ TAB +:+ "yes" +:+ LF
  +:+ "PasswordAuthentication" +:+ TAB +:+ "no" +:+ LF
  +:+ "PermitRootLogin" +:+ TAB +:+ "no" +:+ LF.

Definition host_key_path : string := path_join STATE_DIR "host_ed25519_key".

Definition ssh_keygen_argv : list string :=
  ["ssh-keygen"; "-q"; "-N"; EmptyString; "-t"; "ed25519"; "-f"; host_key_path].

(** [ensure_host_key], lines 97-102. *)
Definition ensure_host_key : M string :=
  let host_key := host_key_path in
  mkdir STATE_DIR o700 ;;;
  found <- path_exists host_key ;;
  (if negb found then
     rc <- subprocess_run ssh_keygen_argv ;;
     check_returncode rc
   else ret tt) ;;;
  ret host_key.

(** [get_username], lines 104-105. *)
Definition get_username : M string :=
  match pw_name env with
  | Some name => ret name
  | None => raise KeyError
  end.

(** The vector built on line 118. *)
Definition sshd_argv (sshd : option string) (parsed_args : Namespace)
    (sshd_config_file host_key : string) : list (option string) :=
  [sshd; Some "-Dp"; Some (str_port (ns_port parsed_args));
   Some "-f"; Some sshd_config_file; Some "-h"; Some host_key].

(** The launcher: the end of [main], lines 117-123. *)
Definition launch (parsed_args : Namespace)
    (sshd_config sshd_config_file host_key : string) : M unit :=
  let sshd := which env "sshd" in
  let argv := sshd_argv sshd parsed_args sshd_config_file host_key in
  if ns_quiet parsed_args then os_execv sshd argv
  else
    let argv := argv ++ [Some "-e"] in
    emit (EvPrintArgv argv) ;;;
    emit (EvPrint sshd_config) ;;;
    os_execv sshd argv.

(** [main], lines 107-123, after [parse_args]. *)
Definition main (parsed_args : Namespace) : M unit :=
  authorized_keys_path <- make_authorized_keys parsed_args ;;
  user <- get_username ;;
  let sshd_config := generate_sshd_config authorized_keys_path user in
  sshd_config_file <- NamedTemporaryFile ;;
  tmpfile_write_text sshd_config_file sshd_config ;;;
  host_key <- ensure_host_key ;;
  launch parsed_args sshd_config sshd_config_file host_key.

End Program.

Arguments bind {A B} m k w /.
Arguments ret {A} a w /.
Arguments raise {A} e w /.
Arguments emit e w /.

(** ** Reading a trace and a configuration *)

Definition is_get (e : event) : bool :=
  match e with EvGet _ => true | _ => false end.

Definition is_exec (e : event) : bool :=
  match e with EvExecv _ _ => true | _ => false end.

(** Number of calls of [requests.get] made so far. *)
Definition fetches (w : World) : nat :=
  length (List.filter is_get (trace w)).

(** Whether the server has been launched. *)
Definition launched (w : World) : bool := existsb is_exec (trace w).

(** [s.split('\n')] *)
Fixpoint lines (s : string) : list string :=
  match s with
  | EmptyString => [EmptyString]
  | String c rest =>
      if Ascii.eqb c "010"%char then EmptyString :: lines rest
      else match lines rest with
           | l :: ls => String c l :: ls
           | [] => [String c EmptyString]
           end
  end.

Fixpoint has_newline (s : string) : bool :=
  match s with
  | EmptyString => false
  | String c rest => Ascii.eqb c "010"%char || has_newline rest
  end.

(** [line.removeprefix(pre)] when [line.startswith(pre)]. *)
Fixpoint strip_prefix (pre line : string) : option string :=
  match pre, line with
  | EmptyString, _ => Some line
  | String a pre', String b line' =>
      if Ascii.eqb a b then strip_prefix pre' line' else None
  | String _ _, EmptyString => None
  end.

(** The values of the directives named [key] in a configuration: what
    follows [key] and a tab on each line that starts so. *)
Definition directive_values (key : string) (config : string) : list string :=
  omap (strip_prefix (key +:+ String "009"%char EmptyString)) (lines config).

Definition is_blank (c : ascii) : bool :=
  Ascii.eqb c " " || Ascii.eqb c "009"%char.

Fixpoint skip_blanks (s : string) : string :=
  match s with
  | String c rest => if is_blank c then skip_blanks rest else s
  | EmptyString => s
  end.

(** [c.lower()] on ASCII letters *)
Definition lower (c : ascii) : ascii :=
  let n := N_of_ascii c in
  if ((65 <=? n) && (n <=? 90))%N then ascii_of_N (n + 32) else c.

(** A line cut at its first blank: the keyword in lower case, and what
    follows that blank. *)
Fixpoint keyword_and_rest (s : string) : string * string :=
  match s with
  | EmptyString => (EmptyString, EmptyString)
  | String c rest =>
      if is_blank c then (EmptyString, rest)
      else (String (lower c) (fst (keyword_and_rest rest)),
            snd (keyword_and_rest rest))
  end.

(** A line of a server configuration as the server reads it: leading
    blanks are skipped, empty lines and comments carry nothing, keywords
    are case-insensitive and a blank separates the keyword from its
    argument. *)
Definition read_directive (line : string) : option (string * string) :=
  match skip_blanks line with
  | EmptyString => None
  | String c rest =>
      if Ascii.eqb c "#" then None else Some (keyword_and_rest (String c rest))
  end.

(** Every directive of a configuration, in order. *)
Definition directives (config : string) : list (string * string) :=
  omap read_directive (lines config).

Definition is_absolute (p : string) : bool :=
  match p with
  | String c _ => Ascii.eqb c "/"
  | EmptyString => false
  end.

Definition is_umask (e : event) : bool :=
  match e with EvUmask _ => true | _ => false end.

(** The operations assembly applies to the network and to the key cache:
    a GET, the [mkdir] of the cache directory, the umask change around
    the loop, and the creation of a cache entry. *)
Definition is_cache_op (e : event) : bool :=
  match e with
  | EvGet _ | EvRedirect _ | EvMkdir _ _ | EvUmask _ | EvOpenW _ => true
  | _ => false
  end.


(** The URLs passed to [requests.get] in a run of events, oldest first. *)
Definition fetched (evs : list event) : list string :=
  omap (fun e => match e with EvGet u => Some u | _ => None end) evs.


(** [w'] keeps every entry of the file system of [w] as it is. *)
Definition keeps_files (w w' : World) : Prop :=
  forall k n, fs w !! k = Some n -> fs w' !! k = Some n.

(** A computation that neither launches the server nor replaces the
    process, whatever its outcome. *)
Definition no_launch {A} (m : M A) : Prop :=
  forall w,
    match m w with
    | Ok _ w' | Raise _ w' => launched w' = launched w
    | Replaced _ => False
    end.

(** How [main] can end: it never returns; it raises without having
    launched anything, or the process has become an [sshd] that was found
    on the search path. *)
Definition ends_in_launch (env : Env) (m : M unit) : Prop :=
  forall w,
    match m w with
    | Ok _ _ => False
    | Raise _ w' => launched w' = launched w
    | Replaced w' =>
        launched w' = true /\ exists sshd, which env "sshd" = Some sshd
    end.

(** ** A concrete machine, used to run the program on examples *)

Module Demo.

(** A stand-in for the digest, good enough to run examples. *)
Definition digest (s : string) : string := "sha3-" +:+ s.

Definition key_text : string := "ssh-ed25519 AAAAC3Nz alice@laptop".

(** An [ssh-keygen] that writes the private key to the path after [-f]
    and the public key next to it. *)
Definition keygen (argv : list string) (f : gmap string node)
  : option (Z * gmap string node) :=
  let target := List.last argv EmptyString in
  Some (0, <[target +:+ ".pub" := File o644 (list_byte_of_string "PUB")]>
             (<[target := File o600 (list_byte_of_string "PRIV")]> f)).

Definition machine_with (answer : list string * http_result)
    (sshd : option string) : Env :=
  {| xdg_state_home := None;
     home := "/home/alice";
     pw_name := Some "alice";
     which := fun _ => sshd;
     net := fun _ _ => answer;
     spawn := fun _ => keygen;
     tmp_name := fun n => "/tmp/tmp" +:+ str_of_Z (Z.of_nat n);
     locale_encode := fun text => Some (list_byte_of_string text);
     write_fault := fun _ _ => None;
     can_exec := fun _ _ => true |}.

Definition machine (status : Z) (sshd : option string) : Env :=
  machine_with ([], Response status key_text) sshd.

(** A machine whose network answers 304 Not Modified, without a body. *)
Definition not_modified : Env :=
  machine_with ([], Response 304 EmptyString) None.

(** A machine whose network redirects every request once. *)
Definition redirected : Env :=
  machine_with (["https://cdn.example.org/keys"], Response 200 key_text) None.

Definition args_port (port : string) : Namespace :=
  {| ns_file := None; ns_url := None; ns_github := None;
     ns_port := PortStr port; ns_quiet := true |}.

Definition env : Env := machine 200 (Some "/usr/sbin/sshd").

Definition boot (f : gmap string node) : World :=
  {| fs := f; umask := o077; rng := 0; trace := [] |}.

Definition empty_disk : World := boot ∅.

Definition bytes_a : list Byte.byte := list_byte_of_string "keyA" ++ [Byte.x0a].
Definition bytes_b : list Byte.byte := list_byte_of_string "keyB" ++ [Byte.x0a].

Definition two_files : World :=
  boot (<["fileA" := File o644 bytes_a]> (<["fileB" := File o644 bytes_b]> ∅)).

Definition state_dir : string := "/home/alice/.local/state/tmpssh".
Definition cache_dir : string := "/home/alice/.local/state/tmpssh/pubkeys".
Definition host_key : string :=
  "/home/alice/.local/state/tmpssh/host_ed25519_key".
Definition url : string := "https://example.org/alice.keys".

Definition with_host_key : World :=
  boot (<[host_key := File o600 (list_byte_of_string "PRIV")]>
          (<[state_dir := Dir o700]> ∅)).

Definition with_default_keys : World :=
  boot (<["/home/alice/.ssh/authorized_keys" := File o600 bytes_a]> ∅).

Definition args_files (files : list string) : Namespace :=
  {| ns_file := Some files; ns_url := None; ns_github := None;
     ns_port := PortInt 2222; ns_quiet := false |}.

Definition args_url : Namespace :=
  {| ns_file := None; ns_url := Some [url]; ns_github := None;
     ns_port := PortInt 2222; ns_quiet := false |}.

(** The world after the URL has been resolved once on an empty disk. *)
Definition after_first : World :=
  final_world (resolve_url digest env cache_dir url empty_disk).

(** The empty disk once the state directory has been made. *)
Definition after_mkdir : World :=
  final_world (mkdir state_dir o700 empty_disk).

(** The world after the sources of [args_url] have been resolved. *)
Definition after_resolve : World :=
  final_world (resolve_sources digest env args_url empty_disk).

Definition url2 : string := "https://example.org/bob.keys".

Definition args_two_urls : Namespace :=
  {| ns_file := None; ns_url := Some [url; url2]; ns_github := None;
     ns_port := PortInt 2222; ns_quiet := true |}.

(** The world after the sources of [args_two_urls] have been resolved. *)
Definition after_two : World :=
  final_world (resolve_sources digest env args_two_urls empty_disk).

(** A machine whose network answers every request with 404. *)
Definition offline : Env := machine 404 (Some "/usr/sbin/sshd").

End Demo.

(** ** Lines of a text *)

Lemma lines_app_lf (a b : string) :
  has_newline a = false ->
  lines (a +:+ String "010"%char b) = a :: lines b.
Proof.
  induction a as [|c a IH]; intros Ha.
  - reflexivity.
  - cbn [has_newline] in Ha. apply orb_false_elim in Ha as [Hc Ha].
    simpl. rewrite Hc, (IH Ha). reflexivity.
Qed.

Lemma has_newline_app (a b : string) :
  has_newline (a +:+ b) = has_newline a || has_newline b.
Proof.
  induction a as [|c a IH]; simpl.
  - reflexivity.
  - rewrite IH. apply orb_assoc.
Qed.

Lemma app_assoc_str (a b c : string) : (a +:+ b) +:+ c = a +:+ (b +:+ c).
Proof.
  induction a as [|x a IH]; [reflexivity|].
  change (String x ((a +:+ b) +:+ c) = String x (a +:+ (b +:+ c))).
  now rewrite IH.
Qed.

Lemma LF_app (s : string) : LF +:+ s = String "010"%char s.
Proof. reflexivity. Qed.

(** The rendered configuration, line by line, when neither argument
    brings a line break of its own. *)
Lemma generate_sshd_config_lines (authorized_keys : source) (user : string) :
  has_newline (str authorized_keys) = false ->
  has_newline user = false ->
  lines (generate_sshd_config authorized_keys user) =
    [ EmptyString;
      "AuthorizedKeysFile" +:+ TAB +:+ str authorized_keys;
      "AllowUsers" +:+ TAB +:+ user;
      "PubkeyAuthentication" +:+ TAB +:+ "yes";
      "PasswordAuthentication" +:+ TAB +:+ "no";
      "PermitRootLogin" +:+ TAB +:+ "no";
      EmptyString ].
Proof.
  intros Hp Hu. unfold generate_sshd_config. rewrite !LF_app.
  change (lines (String "010"%char ?x)) with (EmptyString :: lines x). f_equal.
  rewrite <- (app_assoc_str TAB), <- (app_assoc_str "AuthorizedKeysFile").
  rewrite lines_app_lf by (rewrite !has_newline_app, Hp; reflexivity). f_equal.
  rewrite <- (app_assoc_str TAB), <- (app_assoc_str "AllowUsers").
  rewrite lines_app_lf by (rewrite !has_newline_app, Hu; reflexivity). f_equal.
Qed.

(** ** The server configuration *)

(** C2, as amended.  For every authorized-keys path and user name without
    a line break, the rendered configuration consists of exactly these
    lines: an empty one, [AuthorizedKeysFile] with the path exactly as it
    was given (absolute or not), [AllowUsers] with the user name,
    [PubkeyAuthentication yes], [PasswordAuthentication no],
    [PermitRootLogin no], and an empty one.  Read as the server reads it
    (keywords in any case, leading blanks skipped, a space or a tab after
    the keyword), it therefore holds those five directives and no other:
    one allowed-user directive, naming that user, public-key
    authentication on, password and root login off.  The number of key
    sources plays no part: the renderer never sees it. *)
Theorem generate_sshd_config_directives
    (authorized_keys : source) (user : string) :
  has_newline (str authorized_keys) = false ->
  has_newline user = false ->
  lines (generate_sshd_config authorized_keys user) =
    [ EmptyString;
      "AuthorizedKeysFile" +:+ TAB +:+ str authorized_keys;
      "AllowUsers" +:+ TAB +:+ user;
      "PubkeyAuthentication" +:+ TAB +:+ "yes";
      "PasswordAuthentication" +:+ TAB +:+ "no";
      "PermitRootLogin" +:+ TAB +:+ "no";
      EmptyString ] /\
  directives (generate_sshd_config authorized_keys user) =
    [ ("authorizedkeysfile", str authorized_keys);
      ("allowusers", user);
      ("pubkeyauthentication", "yes");
      ("passwordauthentication", "no");
      ("permitrootlogin", "no") ] /\
  directive_values "AllowUsers" (generate_sshd_config authorized_keys user)
    = [user] /\
  directive_values "PubkeyAuthentication"
    (generate_sshd_config authorized_keys user) = ["yes"] /\
  directive_values "PasswordAuthentication"
    (generate_sshd_config authorized_keys user) = ["no"] /\
  directive_values "PermitRootLogin"
    (generate_sshd_config authorized_keys user) = ["no"] /\
  directive_values "AuthorizedKeysFile"
    (generate_sshd_config authorized_keys user) = [str authorized_keys].
Proof.
  intros Hp Hu. unfold directives, directive_values.
  rewrite (generate_sshd_config_lines _ _ Hp Hu).
  repeat split; vm_compute; reflexivity.
Qed.

Lemma generate_sshd_config_directives_witness :
  directives
    (generate_sshd_config (SrcPath "/home/alice/.ssh/authorized_keys") "alice")
  = [ ("authorizedkeysfile", "/home/alice/.ssh/authorized_keys");
      ("allowusers", "alice");
      ("pubkeyauthentication", "yes");
      ("passwordauthentication", "no");
      ("permitrootlogin", "no") ].
Proof.
  destruct (generate_sshd_config_directives
              (SrcPath "/home/alice/.ssh/authorized_keys") "alice")
    as (_ & H & _); [reflexivity | reflexivity | exact H].
Defined.

(** C2 fails as stated: a key file given as [-f keys.pub] is the only
    source, reaches the renderer as the string [keys.pub], and the
    configuration refers to it by that relative path.  A path that holds a
    line break carries directives of its own into the configuration. *)
Lemma generate_sshd_config_relative_path :
  directive_values "AuthorizedKeysFile"
    (generate_sshd_config (SrcStr "keys.pub") "alice") = ["keys.pub"]
  /\ is_absolute "keys.pub" = false
  /\ directive_values "AllowUsers"
       (generate_sshd_config
          (SrcStr ("keys" +:+ LF +:+ "AllowUsers" +:+ TAB +:+ "mallory"))
          "alice")
     = ["mallory"; "alice"].
Proof. repeat split; reflexivity. Qed.

Section Properties.

Variable sha3_256 : string -> string.
Variable env : Env.

(** ** Generic facts about the primitives *)

Lemma launched_log (e : event) (w : World) :
  is_exec e = false -> launched (log e w) = launched w.
Proof.
  intros He. unfold launched, log; simpl.
  rewrite existsb_app; simpl. rewrite He. now rewrite !orb_false_r.
Qed.

Lemma fetches_log (e : event) (w : World) :
  is_get e = false -> fetches (log e w) = fetches w.
Proof.
  intros He. unfold fetches, log; simpl.
  rewrite List.filter_app, length_app; simpl. rewrite He. simpl. lia.
Qed.

Lemma fetches_log_get (url : string) (w : World) :
  fetches (log (EvGet url) w) = S (fetches w).
Proof.
  unfold fetches, log; simpl. rewrite List.filter_app, length_app; simpl. lia.
Qed.

(** ** The key fetcher *)

(** C7, as amended.  [do_get] calls [requests.get] once and never again:
    one GET goes out for the URL, followed by one GET for each redirect
    that call follows, and nothing is retried.  It returns the text of the
    final response whenever its status is outside 400-599, which covers
    every success status; it raises [HTTPError] for a 4xx or 5xx status and
    the [requests] exception when the request cannot complete.  The
    exception leaves [get_and_save_url] at once, before the cache file is
    opened. *)
Theorem do_get_spec (url : string) (w : World) :
  trace (final_world (do_get env url w))
    = trace w
      ++ EvGet url :: map EvRedirect (fst (net env (length (trace w)) url)) /\
  fetches (final_world (do_get env url w)) = S (fetches w) /\
  fs (final_world (do_get env url w)) = fs w /\
  (forall status body,
      snd (net env (length (trace w)) url) = Response status body ->
      ~ (400 <= status < 600) ->
      do_get env url w = Ok body (final_world (do_get env url w))) /\
  (forall status body,
      snd (net env (length (trace w)) url) = Response status body ->
      400 <= status < 600 ->
      do_get env url w
        = Raise (HTTPError status) (final_world (do_get env url w))) /\
  (snd (net env (length (trace w)) url) = NoResponse ->
      do_get env url w
        = Raise RequestException (final_world (do_get env url w))) /\
  (forall e w' file,
      do_get env url w = Raise e w' ->
      get_and_save_url env file url w = Raise e w' /\ fs w' = fs w).
Proof.
  assert (Hf : forall hops,
    fetches (log_all (map EvRedirect hops) (log (EvGet url) w))
    = S (fetches w)).
  { intros hops. unfold fetches, log_all, log. cbn [trace].
    rewrite !List.filter_app, !length_app.
    replace (List.filter is_get (map EvRedirect hops)) with (@nil event)
      by (induction hops; [reflexivity | assumption]).
    cbn. lia. }
  unfold get_and_save_url, do_get, requests_get, raise_for_status.
  cbn [bind].
  destruct (net env (length (trace w)) url) as [hops [status body|]];
    cbn [fst snd bind ret raise].
  - destruct ((400 <=? status) && (status <? 600)) eqn:Herr;
      cbn [final_world bind ret raise];
      (split; [cbn [trace log_all log]; now rewrite <- app_assoc|]);
      (split; [apply Hf|]); (split; [reflexivity|]).
    + apply andb_true_iff in Herr as [Hlo Hhi].
      split; [intros s b [= <- <-] Hs; exfalso; lia|].
      split; [intros s b [= <- <-] _; reflexivity|].
      split; [discriminate|].
      intros e w' file [= <- <-]. split; reflexivity.
    + apply andb_false_iff in Herr.
      split; [intros s b [= <- <-] _; reflexivity|].
      split; [intros s b [= <- <-] Hs; exfalso; lia|].
      split; [discriminate|].
      intros e w' file; discriminate.
  - cbn [final_world].
    split; [cbn [trace log_all log]; now rewrite <- app_assoc|].
    split; [apply Hf|]. split; [reflexivity|].
    split; [discriminate|]. split; [discriminate|]. split; [reflexivity|].
    intros e w' file [= <- <-]. split; reflexivity.
Qed.

(** ** The launcher *)

(** C8.  When no [sshd] is found on the search path the launcher fails (the
    [None] path is rejected by [os.execv]) and nothing is executed.
    Otherwise it builds the vector [sshd -Dp PORT -f CONFIG -h HOSTKEY],
    followed by [-e] exactly when [--quiet] is absent, where [PORT] is the
    text given with [-p], or [2222] when [-p] is absent; unless quiet it
    prints the vector and the configuration; and it calls [os.execv] on
    that vector, which replaces the process image by [sshd] when the
    kernel accepts the file, and raises otherwise. *)
Theorem launch_spec (parsed_args : Namespace)
    (sshd_config sshd_config_file host_key : string) (w : World) :
  (which env "sshd" = None ->
     exists w',
       launch env parsed_args sshd_config sshd_config_file host_key w
         = Raise TypeError w'
       /\ launched w' = launched w /\ fs w' = fs w) /\
  (forall sshd port,
     which env "sshd" = Some sshd ->
     ns_port parsed_args = PortStr port
     \/ (ns_port parsed_args = PortInt 2222 /\ port = "2222") ->
     let argv :=
       [Some sshd; Some "-Dp"; Some port;
        Some "-f"; Some sshd_config_file; Some "-h"; Some host_key]
       ++ (if ns_quiet parsed_args then [] else [Some "-e"]) in
     let w0 :=
       log_all (if ns_quiet parsed_args then []
                else [EvPrintArgv argv; EvPrint sshd_config]) w in
     launch env parsed_args sshd_config sshd_config_file host_key w =
       if can_exec env (length (trace w0)) sshd
       then Replaced (log (EvExecv sshd argv) w0)
       else Raise OSError w0) /\
  ns_port create_parser = PortInt 2222.
Proof.
  unfold launch, sshd_argv, os_execv.
  split; [|split; [|reflexivity]].
  - intros ->. destruct (ns_quiet parsed_args); simpl.
    + exists w. auto.
    + eexists. split; [reflexivity|]. split; [|reflexivity].
      now rewrite !launched_log.
  - intros sshd port -> Hport.
    assert (Hp : str_port (ns_port parsed_args) = port).
    { destruct Hport as [-> | [-> ->]]; reflexivity. }
    rewrite Hp.
    destruct (ns_quiet parsed_args); cbn [bind emit app].
    + replace (log_all [] w) with w; [reflexivity|].
      destruct w. unfold log_all. cbn. now rewrite app_nil_r.
    + match goal with
      | |- context [log_all ?evs w] =>
          replace (log_all evs w)
            with (log (EvPrint sshd_config)
                    (log (EvPrintArgv
                            [Some sshd; Some "-Dp"; Some port; Some "-f";
                             Some sshd_config_file; Some "-h"; Some host_key;
                             Some "-e"]) w))
      end; [reflexivity|].
      unfold log_all, log. cbn. now rewrite <- app_assoc.
Qed.

(** ** The assembler: zero sources and one source *)

Lemma main_raises (parsed_args : Namespace) (w w' : World) (e : exn) :
  make_authorized_keys sha3_256 env parsed_args w = Raise e w' ->
  main sha3_256 env parsed_args w = Raise e w'.
Proof. unfold main; simpl. now intros ->. Qed.

Lemma resolve_sources_no_urls (parsed_args : Namespace) (w : World) :
  all_urls parsed_args = [] ->
  resolve_sources sha3_256 env parsed_args w
    = Ok (map SrcStr (or_empty (ns_file parsed_args))) w.
Proof. unfold resolve_sources. now intros ->. Qed.

Lemma all_urls_nil (parsed_args : Namespace) :
  or_empty (ns_url parsed_args) = [] ->
  or_empty (ns_github parsed_args) = [] ->
  all_urls parsed_args = [].
Proof. unfold all_urls. now intros -> ->. Qed.

(** C4.  With no [--file], [--url] or [--github] source, assembly returns
    [~/.ssh/authorized_keys] and leaves the file system as it was when that
    path exists; when it does not, [parser.error] ends the run with exit
    status 2, the usage error, and the server is never launched. *)
Theorem make_authorized_keys_no_sources (parsed_args : Namespace) (w : World) :
  or_empty (ns_file parsed_args) = [] ->
  or_empty (ns_url parsed_args) = [] ->
  or_empty (ns_github parsed_args) = [] ->
  (is_Some (fs w !! default_authorized_keys env) ->
     exists w',
       make_authorized_keys sha3_256 env parsed_args w
         = Ok (SrcPath (path_join (home env) ".ssh/authorized_keys")) w'
       /\ fs w' = fs w) /\
  (fs w !! default_authorized_keys env = None ->
     exists w',
       make_authorized_keys sha3_256 env parsed_args w
         = Raise (SystemExit 2) w'
       /\ main sha3_256 env parsed_args w = Raise (SystemExit 2) w'
       /\ launched w' = launched w
       /\ fs w' = fs w).
Proof.
  intros Hf Hu Hg.
  assert (Hsel : forall r,
    select_authorized_keys env [] w = r ->
    make_authorized_keys sha3_256 env parsed_args w = r).
  { intros r <-. unfold make_authorized_keys; simpl.
    rewrite resolve_sources_no_urls by now apply all_urls_nil.
    now rewrite Hf. }
  split.
  - intros Hex. eexists. split.
    + apply Hsel. unfold select_authorized_keys, path_exists; simpl.
      rewrite bool_decide_eq_true_2 by exact Hex. reflexivity.
    + reflexivity.
  - intros Hno.
    assert (Hr : select_authorized_keys env [] w =
                 Raise (SystemExit 2)
                   (log (EvStderr "No key sources given, and ~/.ssh/authorized_keys does not exist.")
                      (log (EvStat (default_authorized_keys env)) w))).
    { unfold select_authorized_keys, path_exists; simpl.
      rewrite bool_decide_eq_false_2; [reflexivity|].
      rewrite Hno. now intros [? ?]. }
    eexists. split; [apply Hsel, Hr|].
    split; [apply main_raises, Hsel, Hr|].
    split; [|reflexivity]. now rewrite !launched_log.
Qed.

(** C6.  When resolution leaves exactly one source, the assembler returns
    that very value and stops in the world resolution left: no temporary
    file is created and nothing is read or written.  A single [-f] file, in
    particular, is returned as given, and the world is not touched at
    all. *)
Theorem make_authorized_keys_single_source
    (parsed_args : Namespace) (w : World) :
  (forall only w1,
      resolve_sources sha3_256 env parsed_args w = Ok [only] w1 ->
      make_authorized_keys sha3_256 env parsed_args w = Ok only w1) /\
  (forall file,
      or_empty (ns_file parsed_args) = [file] ->
      all_urls parsed_args = [] ->
      make_authorized_keys sha3_256 env parsed_args w = Ok (SrcStr file) w).
Proof.
  split.
  - intros only w1 Hr. unfold make_authorized_keys; simpl. now rewrite Hr.
  - intros file Hf Hu. unfold make_authorized_keys; simpl.
    rewrite resolve_sources_no_urls by exact Hu. now rewrite Hf.
Qed.

(** ** Temporary files *)

Lemma mkstemp_inner_ok (fuel : nat) (w w' : World) (name : string) :
  mkstemp_inner env fuel w = Ok name w' ->
  fs w !! name = None
  /\ fs w' = <[name := File (Z.ldiff o600 (umask w)) []]> (fs w)
  /\ umask w' = umask w
  /\ trace w' = trace w ++ [EvMkstemp name].
Proof.
  revert w. induction fuel as [|fuel IH]; intros w; simpl; [discriminate|].
  destruct (fs w !! tmp_name env (rng w)) eqn:Hfree.
  - intros H. apply IH in H. exact H.
  - intros [= <- <-]. auto.
Qed.

Lemma mkstemp_inner_raise (fuel : nat) (w w' : World) (e : exn) :
  mkstemp_inner env fuel w = Raise e w' ->
  fs w' = fs w /\ umask w' = umask w /\ trace w' = trace w.
Proof.
  revert w. induction fuel as [|fuel IH]; intros w; simpl.
  - intros [= <- <-]. auto.
  - destruct (fs w !! tmp_name env (rng w)); [|discriminate].
    intros H. apply IH in H. exact H.
Qed.

Lemma mkstemp_inner_not_replaced (fuel : nat) (w w' : World) :
  mkstemp_inner env fuel w <> Replaced w'.
Proof.
  revert w. induction fuel as [|fuel IH]; intros w; simpl; [discriminate|].
  destruct (fs w !! tmp_name env (rng w)); [apply IH | discriminate].
Qed.

Lemma mkstemp_inner_S (fuel : nat) (w : World) :
  mkstemp_inner env (S fuel) w =
    match fs w !! tmp_name env (rng w) with
    | Some _ => mkstemp_inner env fuel (set_rng (S (rng w)) w)
    | None =>
        Ok (tmp_name env (rng w))
           (log (EvMkstemp (tmp_name env (rng w)))
              (set_fs (<[tmp_name env (rng w) :=
                           File (Z.ldiff o600 (umask w)) []]> (fs w))
                 (set_rng (S (rng w)) w)))
    end.
Proof. reflexivity. Qed.

Lemma TMP_MAX_succ : TMP_MAX = S (Z.to_nat 9999).
Proof. unfold TMP_MAX. lia. Qed.

(** The first candidate is taken when it is free. *)
Lemma NamedTemporaryFile_first_free (w : World) :
  fs w !! tmp_name env (rng w) = None ->
  NamedTemporaryFile env w =
    Ok (tmp_name env (rng w))
       (log (EvMkstemp (tmp_name env (rng w)))
          (set_fs (<[tmp_name env (rng w) :=
                       File (Z.ldiff o600 (umask w)) []]> (fs w))
             (set_rng (S (rng w)) w))).
Proof.
  intros Hfree. unfold NamedTemporaryFile. rewrite TMP_MAX_succ.
  rewrite mkstemp_inner_S. now rewrite Hfree.
Qed.

(** ** Merging *)



(** A [str] at the head of the list stops the merge at once. *)
Lemma merge_files_str_head (s : string) (rest : list source) (w : World) :
  (forall p w', merge_files env (SrcStr s :: rest) w <> Ok p w') /\
  (fs w !! tmp_name env (rng w) = None ->
   merge_files env (SrcStr s :: rest) w =
     Raise AttributeError
       (log (EvMkstemp (tmp_name env (rng w)))
          (set_fs (<[tmp_name env (rng w) :=
                       File (Z.ldiff o600 (umask w)) []]> (fs w))
             (set_rng (S (rng w)) w)))).
Proof.
  unfold merge_files; simpl. split.
  - intros p w'. destruct (NamedTemporaryFile env w); discriminate.
  - intros Hfree. now rewrite NamedTemporaryFile_first_free.
Qed.

(** ** The key cache *)

Lemma length_append_str (a b : string) :
  String.length (a +:+ b) = (String.length a + String.length b)%nat.
Proof.
  induction a as [|c a IH]; [reflexivity|].
  change (S (String.length (a +:+ b)) = S (String.length a + String.length b)).
  now rewrite IH.
Qed.

Lemma append_nonempty (a : string) (c : ascii) (rest : string) :
  a +:+ String c rest <> EmptyString.
Proof.
  intros H. apply (f_equal String.length) in H.
  rewrite length_append_str in H. cbn in H. lia.
Qed.

Lemma ends_with_slash_app (pre : string) (c : ascii) (rest : string) :
  ends_with_slash (pre +:+ String c rest) = ends_with_slash (String c rest).
Proof.
  induction pre as [|x pre IH]; [reflexivity|].
  change (String x pre +:+ String c rest)
    with (String x (pre +:+ String c rest)).
  cbn [ends_with_slash].
  destruct (pre +:+ String c rest) as [|y tail] eqn:E.
  - now apply append_nonempty in E.
  - exact IH.
Qed.

Lemma path_join_suffix (a b : string) : exists pre, path_join a b = pre +:+ b.
Proof.
  unfold path_join. destruct (String.eqb a ".").
  - exists EmptyString. reflexivity.
  - destruct (ends_with_slash a).
    + exists a. reflexivity.
    + exists (a +:+ "/"). now rewrite app_assoc_str.
Qed.

Lemma path_join_plain (a b : string) :
  plain a = true -> path_join a b = a +:+ "/" +:+ b.
Proof.
  unfold plain, path_join. intros H. apply andb_true_iff in H as [H1 H2].
  apply negb_true_iff in H1, H2. now rewrite H1, H2.
Qed.

(** Joining a name of two characters or more that does not end in a
    separator gives a plain path. *)
Lemma plain_path_join (a : string) (c d : ascii) (rest : string) :
  ends_with_slash (String c (String d rest)) = false ->
  plain (path_join a (String c (String d rest))) = true.
Proof.
  intros Hend. destruct (path_join_suffix a (String c (String d rest)))
    as [pre ->].
  unfold plain. rewrite ends_with_slash_app, Hend.
  apply andb_true_iff. split; [|reflexivity].
  apply negb_true_iff, String.eqb_neq. intros E.
  apply (f_equal String.length) in E.
  rewrite length_append_str in E. cbn in E. lia.
Qed.

Lemma path_join_length (a b : string) :
  plain a = true ->
  (String.length a < String.length (path_join a b))%nat.
Proof.
  intros H. rewrite (path_join_plain a b H), !length_append_str. cbn. lia.
Qed.

Lemma STATE_DIR_plain : plain (STATE_DIR env) = true.
Proof. unfold STATE_DIR. now apply plain_path_join. Qed.

Lemma cache_dir_plain : plain (path_join (STATE_DIR env) "pubkeys") = true.
Proof. now apply plain_path_join. Qed.

Lemma parents_from_shorter (s : string) :
  forall pre a,
    In a (parents_from pre s) ->
    (String.length a < String.length pre + String.length s)%nat.
Proof.
  induction s as [|c rest IH]; intros pre a Hin; [destruct Hin|].
  cbn [parents_from String.length] in *.
  apply in_app_iff in Hin as [Hin | Hin].
  - destruct (Ascii.eqb c "/"); [|destruct Hin].
    destruct Hin as [<- | []]. lia.
  - apply IH in Hin. rewrite length_append_str in Hin. cbn in Hin. lia.
Qed.

Lemma ancestors_shorter (p a : string) :
  In a (ancestors p) -> (String.length a < String.length p)%nat.
Proof.
  unfold ancestors. intros Hin. apply List.filter_In in Hin as [Hin _].
  now apply parents_from_shorter in Hin.
Qed.

(** A cache hit: one [exists] and nothing else. *)
Lemma resolve_url_hit (cache_dir url : string) (w : World) :
  is_Some (fs w !! cache_file_path sha3_256 cache_dir url) ->
  resolve_url sha3_256 env cache_dir url w =
    Ok (SrcPath (cache_file_path sha3_256 cache_dir url))
       (log (EvStat (cache_file_path sha3_256 cache_dir url)) w).
Proof.
  intros Hex. unfold resolve_url, path_exists; simpl.
  now rewrite bool_decide_eq_true_2 by exact Hex.
Qed.

Lemma filter_get_redirects (hops : list string) :
  List.filter is_get (map EvRedirect hops) = [].
Proof. induction hops; [reflexivity | assumption]. Qed.

Lemma Forall_redirects_no_umask (hops : list string) :
  Forall (fun e => is_umask e = false) (map EvRedirect hops).
Proof. induction hops; constructor; auto. Qed.

(** Opening a path that has no entry. *)
Lemma open_w_write_new (p content : string) (w : World) :
  fs w !! p = None ->
  open_w_write env p content w =
    match write_fault env (length (trace w)) p with
    | Some OpenDenied => Raise (PermissionError p) (log (EvOpenW p) w)
    | fault =>
        match locale_encode env content with
        | None =>
            Raise UnicodeEncodeError
              (set_fs (<[p := File (Z.ldiff o666 (umask w)) []]> (fs w))
                 (log (EvOpenW p) w))
        | Some data =>
            match fault with
            | Some (WriteCut n) =>
                Raise OSError
                  (set_fs (<[p := File (Z.ldiff o666 (umask w)) (take n data)]>
                             (fs w))
                     (log (EvOpenW p) w))
            | _ =>
                Ok tt
                  (set_fs (<[p := File (Z.ldiff o666 (umask w)) data]> (fs w))
                     (log (EvOpenW p) w))
            end
        end
    end.
Proof. intros Hp. unfold open_w_write. rewrite Hp. reflexivity. Qed.

(** A cache miss: one [exists], one call of [requests.get] and, when the
    status is not an error status, the writing of the entry. *)
Lemma resolve_url_miss (cache_dir url : string) (w : World) :
  fs w !! cache_file_path sha3_256 cache_dir url = None ->
  resolve_url sha3_256 env cache_dir url w =
    let slot := cache_file_path sha3_256 cache_dir url in
    let w1 :=
      log_all (map EvRedirect (fst (net env (S (length (trace w))) url)))
        (log (EvGet url) (log (EvStat slot) w)) in
    match snd (net env (S (length (trace w))) url) with
    | Response status body =>
        if (400 <=? status) && (status <? 600)
        then Raise (HTTPError status) w1
        else (open_w_write env slot body ;;; ret (SrcPath slot)) w1
    | NoResponse => Raise RequestException w1
    end.
Proof.
  intros Hslot.
  unfold resolve_url, path_exists, get_and_save_url, do_get, requests_get,
    raise_for_status.
  cbn [bind ret raise fs log trace].
  rewrite bool_decide_eq_false_2
    by (rewrite Hslot; intros [? ?]; discriminate).
  cbn [negb bind ret raise fs log trace umask].
  rewrite length_app. cbn [length]. rewrite Nat.add_1_r.
  destruct (net env (S (length (trace w))) url) as [hops [status body|]];
    [|reflexivity].
  cbn [fst snd bind ret raise].
  destruct ((400 <=? status) && (status <? 600)); reflexivity.
Qed.

(** What a successful resolution leaves behind. *)
Lemma resolve_url_ok (cache_dir url : string) (w w' : World) (p : source) :
  resolve_url sha3_256 env cache_dir url w = Ok p w' ->
  let slot := cache_file_path sha3_256 cache_dir url in
  p = SrcPath slot
  /\ is_Some (fs w' !! slot)
  /\ umask w' = umask w
  /\ (forall k, k <> slot -> fs w' !! k = fs w !! k)
  /\ (is_Some (fs w !! slot) ->
        fs w' = fs w /\ trace w' = trace w ++ [EvStat slot])
  /\ (fs w !! slot = None ->
        (exists data, fs w' !! slot = Some (File (Z.ldiff o666 (umask w)) data))
        /\ exists hops,
             trace w' =
               trace w
               ++ [EvStat slot; EvGet url] ++ map EvRedirect hops
               ++ [EvOpenW slot]).
Proof.
  intros Hrun slot.
  destruct (fs w !! slot) as [n|] eqn:Hslot.
  - rewrite resolve_url_hit in Hrun by (fold slot; rewrite Hslot; eauto).
    injection Hrun as <- <-. simpl. fold slot.
    repeat split; auto; try (rewrite Hslot; eauto); discriminate.
  - rewrite (resolve_url_miss cache_dir url w Hslot) in Hrun.
    cbv zeta in Hrun. fold slot in Hrun.
    destruct (net env (S (length (trace w))) url) as [hops [status body|]];
      cbn [fst snd] in Hrun; [|discriminate].
    destruct ((400 <=? status) && (status <? 600)); [discriminate|].
    cbn [bind] in Hrun.
    rewrite open_w_write_new in Hrun by exact Hslot.
    destruct (write_fault env _ slot) as [[|cut]|];
      destruct (locale_encode env body) as [data|];
      try discriminate; cbn [ret] in Hrun;
      injection Hrun as <- <-; cbn [fs umask trace set_fs log log_all];
      (split; [reflexivity|]);
      (split; [rewrite lookup_insert_eq; eauto|]);
      (split; [reflexivity|]);
      (split; [intros k Hk; now rewrite lookup_insert_ne by congruence|]);
      (split; [intros [? ?]; discriminate|]);
      intros _; (split; [rewrite lookup_insert_eq; eauto|]);
      exists hops; now rewrite <- !app_assoc.
Qed.

(** C3.  The cache slot of a URL is [cache_dir / sha3_256(url)], a function
    of the directory and the URL string alone.  After a resolution that
    succeeded, resolving the same URL again in the same cache directory
    returns the same path, performs no GET and leaves the file system as it
    is; the two resolutions together perform one GET when the slot was
    empty at first and none when it was not. *)
Theorem resolve_url_twice (cache_dir url : string) (w w1 : World) (p : source) :
  resolve_url sha3_256 env cache_dir url w = Ok p w1 ->
  p = SrcPath (path_join cache_dir (sha3_256 url))
  /\ exists w2,
       resolve_url sha3_256 env cache_dir url w1 = Ok p w2
       /\ fetches w2 = fetches w1
       /\ fs w2 = fs w1
       /\ (fs w !! path_join cache_dir (sha3_256 url) = None ->
            fetches w2 = S (fetches w))
       /\ (is_Some (fs w !! path_join cache_dir (sha3_256 url)) ->
            fetches w2 = fetches w).
Proof.
  intros Hrun.
  destruct (resolve_url_ok _ _ _ _ _ Hrun)
    as (-> & Hex & _ & _ & Hhit & Hmiss).
  split; [reflexivity|].
  eexists. split; [apply resolve_url_hit, Hex|].
  split; [now rewrite fetches_log|]. split; [reflexivity|].
  rewrite fetches_log by reflexivity. split.
  - intros Hnone. destruct (Hmiss Hnone) as [_ [hops Htr]].
    unfold fetches. rewrite Htr, !List.filter_app, !length_app.
    rewrite filter_get_redirects. simpl. lia.
  - intros Hsome. destruct (Hhit Hsome) as [_ Htr].
    unfold fetches. rewrite Htr, List.filter_app, length_app. simpl. lia.
Qed.

(** The loop over the URLs: what it returns and what it may change. *)
Lemma resolve_urls_ok (cache_dir : string) (urls : list string) :
  forall (sources srcs : list source) (w w' : World),
    resolve_urls sha3_256 env cache_dir urls sources w = Ok srcs w' ->
    srcs = sources
           ++ map (fun u => SrcPath (cache_file_path sha3_256 cache_dir u)) urls
    /\ umask w' = umask w
    /\ (forall u, In u urls ->
          is_Some (fs w' !! cache_file_path sha3_256 cache_dir u))
    /\ (forall k,
          fs w' !! k = fs w !! k
          \/ (fs w !! k = None
              /\ exists data,
                   fs w' !! k = Some (File (Z.ldiff o666 (umask w)) data)))
    /\ exists evs,
         trace w' = trace w ++ evs /\ Forall (fun e => is_umask e = false) evs.
Proof.
  induction urls as [|url rest IH]; intros sources srcs w w'; simpl.
  - intros [= <- <-]. rewrite app_nil_r.
    repeat split; auto; try contradiction.
    exists []. now rewrite app_nil_r.
  - destruct (resolve_url sha3_256 env cache_dir url w) as [p w1| |] eqn:Hone;
      try discriminate.
    intros Hrest.
    destruct (resolve_url_ok _ _ _ _ _ Hone)
      as (-> & Hex & Hum1 & Hother & Hhit & Hmiss).
    destruct (IH _ _ _ _ Hrest) as (-> & Hum & Hall & Hframe & evs & Htr & Hevs).
    split; [now rewrite <- app_assoc|].
    split; [congruence|].
    split; [|split].
    + intros u [<-|Hin]; [|now apply Hall].
      destruct (Hframe (cache_file_path sha3_256 cache_dir url))
        as [-> | [Hnone _]]; [exact Hex|].
      rewrite Hnone in Hex. now destruct Hex.
    + intros k. rewrite <- Hum1.
      destruct (decide (k = cache_file_path sha3_256 cache_dir url)) as [->|Hk].
      * destruct (fs w !! cache_file_path sha3_256 cache_dir url) eqn:Hslot.
        -- destruct Hhit as [Hfs _]; [eauto|].
           destruct (Hframe (cache_file_path sha3_256 cache_dir url))
             as [-> | [Hnone _]].
           ++ left. now rewrite Hfs.
           ++ rewrite Hfs, Hslot in Hnone. discriminate.
        -- right. split; [reflexivity|].
           destruct Hmiss as [[data Hdata] _]; [reflexivity|].
           destruct (Hframe (cache_file_path sha3_256 cache_dir url))
             as [-> | [Hnone _]].
           ++ rewrite Hum1. eauto.
           ++ rewrite Hdata in Hnone. discriminate.
      * rewrite <- (Hother k Hk). apply Hframe.
    + destruct (fs w !! cache_file_path sha3_256 cache_dir url) eqn:Hslot.
      * destruct Hhit as [_ Htr1]; [eauto|].
        eexists. rewrite Htr, Htr1, <- app_assoc. split; [reflexivity|].
        constructor; [reflexivity | exact Hevs].
      * destruct Hmiss as [_ [hops Htr1]]; [reflexivity|].
        eexists. rewrite Htr, Htr1, <- app_assoc. split; [reflexivity|].
        repeat (apply Forall_app; split);
          auto using Forall_redirects_no_umask;
          repeat (constructor; [reflexivity|]); constructor.
Qed.

Lemma make_parents_ok (above : list string) (mask : Z) :
  forall f f' : gmap string node,
    make_parents above mask f = Some f' ->
    forall k,
      f' !! k = f !! k
      \/ (f !! k = None /\ In k above
          /\ f' !! k = Some (Dir (Z.ldiff o777 mask))).
Proof.
  induction above as [|a rest IH]; intros f f' Hmk k; cbn in Hmk.
  - injection Hmk as <-. now left.
  - destruct (f !! a) as [[m d|m]|] eqn:Ha; [discriminate| |].
    + destruct (IH _ _ Hmk k) as [H | (H1 & H2 & H3)]; [now left|].
      right. split; [exact H1|]. split; [now right | exact H3].
    + destruct (IH _ _ Hmk k) as [H | (H1 & H2 & H3)].
      * destruct (decide (k = a)) as [->|Hk].
        -- right. rewrite lookup_insert_eq in H.
           split; [exact Ha|]. split; [now left | exact H].
        -- left. now rewrite lookup_insert_ne in H by congruence.
      * right. destruct (decide (k = a)) as [->|Hk].
        -- rewrite lookup_insert_eq in H1. discriminate.
        -- rewrite lookup_insert_ne in H1 by congruence.
           split; [exact H1|]. split; [now right | exact H3].
Qed.

Lemma mkdir_ok (p : string) (mode : Z) (w w1 : World) :
  mkdir p mode w = Ok tt w1 ->
  umask w1 = umask w
  /\ trace w1 = trace w ++ [EvMkdir p mode]
  /\ (fs w !! p = None ->
        fs w1 !! p = Some (Dir (Z.ldiff mode (umask w))))
  /\ (is_Some (fs w !! p) -> fs w1 = fs w)
  /\ (forall k,
        (String.length p < String.length k)%nat -> fs w1 !! k = fs w !! k)
  /\ (forall k,
        fs w1 !! k = fs w !! k
        \/ (fs w !! k = None
            /\ ((k = p /\ fs w1 !! k = Some (Dir (Z.ldiff mode (umask w))))
                \/ (In k (ancestors p)
                    /\ fs w1 !! k = Some (Dir (Z.ldiff o777 (umask w))))))).
Proof.
  unfold mkdir. destruct (fs w !! p) as [[m d|m]|] eqn:Hp; [discriminate| |].
  - intros [= <-]. cbn [fs umask trace log].
    repeat split; auto. discriminate.
  - destruct (make_parents (ancestors p) (umask w) (fs w)) as [f|] eqn:Hmk;
      [|discriminate].
    intros [= <-]. cbn [fs umask trace log set_fs].
    pose proof (make_parents_ok _ _ _ _ Hmk) as Hf.
    split; [reflexivity|]. split; [reflexivity|].
    split; [intros _; apply lookup_insert_eq|].
    split; [intros [? ?]; discriminate|].
    assert (Hall : forall k,
      <[p := Dir (Z.ldiff mode (umask w))]> f !! k = fs w !! k
      \/ (fs w !! k = None
          /\ ((k = p
               /\ <[p := Dir (Z.ldiff mode (umask w))]> f !! k
                  = Some (Dir (Z.ldiff mode (umask w))))
              \/ (In k (ancestors p)
                  /\ <[p := Dir (Z.ldiff mode (umask w))]> f !! k
                     = Some (Dir (Z.ldiff o777 (umask w))))))).
    { intros k. destruct (decide (k = p)) as [->|Hk].
      - right. rewrite lookup_insert_eq. split; [exact Hp|]. now left.
      - rewrite lookup_insert_ne by congruence.
        destruct (Hf k) as [H | (H1 & H2 & H3)]; [now left|].
        right. split; [exact H1|]. right. now split. }
    split; [|exact Hall].
    intros k Hlen. destruct (Hall k) as [H | (_ & [[-> _] | [Hin _]])];
      [exact H | lia |].
    apply ancestors_shorter in Hin. lia.
Qed.

(** The shape of a successful resolution when at least one URL is
    configured: [mkdir], umask 0o022, the loop, the old umask. *)
Lemma resolve_sources_urls_ok (parsed_args : Namespace)
    (w w' : World) (srcs : list source) :
  all_urls parsed_args <> [] ->
  resolve_sources sha3_256 env parsed_args w = Ok srcs w' ->
  exists w1 w2,
    mkdir (path_join (STATE_DIR env) "pubkeys") o700 w = Ok tt w1
    /\ resolve_urls sha3_256 env (path_join (STATE_DIR env) "pubkeys")
         (all_urls parsed_args) (map SrcStr (or_empty (ns_file parsed_args)))
         (set_umask o022 (log (EvUmask o022) w1)) = Ok srcs w2
    /\ w' = set_umask (umask w) (log (EvUmask (umask w)) w2).
Proof.
  intros Hne. unfold resolve_sources, ensure_cache_dir, os_umask.
  destruct (all_urls parsed_args) as [|url rest] eqn:Hurls; [congruence|].
  cbn [bind ret].
  destruct (mkdir (path_join (STATE_DIR env) "pubkeys") o700 w)
    as [[] w1| |] eqn:Hmk; try discriminate.
  destruct (mkdir_ok _ _ _ _ Hmk) as (Hum & _).
  cbn [umask set_umask log].
  destruct (resolve_urls sha3_256 env _ (url :: rest) _ _)
    as [srcs' w2| |] eqn:Hloop; try discriminate.
  intros [= <- <-]. exists w1, w2. rewrite <- Hum. auto.
Qed.

Lemma resolve_sources_ok (parsed_args : Namespace)
    (w w' : World) (srcs : list source) :
  resolve_sources sha3_256 env parsed_args w = Ok srcs w' ->
  srcs = map SrcStr (or_empty (ns_file parsed_args))
         ++ map (fun u => SrcPath (cache_file_path sha3_256
                                     (path_join (STATE_DIR env) "pubkeys") u))
              (all_urls parsed_args).
Proof.
  intros Hrun.
  destruct (all_urls parsed_args) as [|url rest] eqn:Hurls.
  - rewrite resolve_sources_no_urls in Hrun by exact Hurls.
    injection Hrun as <- <-. now rewrite app_nil_r.
  - rewrite <- Hurls in *.
    apply resolve_sources_urls_ok in Hrun as (w1 & w2 & _ & Hloop & _);
      [|rewrite Hurls; discriminate].
    now apply resolve_urls_ok in Hloop as (-> & _).
Qed.

(** ** The assembler: two or more sources *)

(** C1 does not hold of the code.  Whenever a [-f] file is among two or
    more resolved sources, the list handed to [merge_files] starts with a
    [str], on which [read_bytes] does not exist: assembly never returns an
    artifact, and when the temporary file can be created it is left empty
    and the run ends with [AttributeError]. *)
Theorem make_authorized_keys_file_sources_fail
    (parsed_args : Namespace) (w w1 : World) (srcs : list source)
    (file1 : string) (rest : list string) :
  or_empty (ns_file parsed_args) = file1 :: rest ->
  resolve_sources sha3_256 env parsed_args w = Ok srcs w1 ->
  (2 <= length srcs)%nat ->
  (forall p w', make_authorized_keys sha3_256 env parsed_args w <> Ok p w') /\
  (fs w1 !! tmp_name env (rng w1) = None ->
   exists w',
     make_authorized_keys sha3_256 env parsed_args w = Raise AttributeError w'
     /\ fs w' =
          <[tmp_name env (rng w1) := File (Z.ldiff o600 (umask w1)) []]>
            (fs w1)).
Proof.
  intros Hfiles Hres Hlen.
  pose proof (resolve_sources_ok _ _ _ _ Hres) as Hsrcs.
  rewrite Hfiles in Hsrcs. simpl in Hsrcs.
  unfold make_authorized_keys; simpl. rewrite Hres.
  destruct srcs as [|s0 [|s1 more]]; simpl in Hlen; try lia.
  injection Hsrcs as -> Htail.
  change (select_authorized_keys env (SrcStr file1 :: s1 :: more) w1)
    with (merge_files env (SrcStr file1 :: s1 :: more) w1).
  destruct (merge_files_str_head file1 (s1 :: more) w1) as [Hnever Hraise].
  split; [exact Hnever|].
  intros Hfree. rewrite (Hraise Hfree). eexists. split; reflexivity.
Qed.


(** ** The umask around the cache *)

(** A directory made with mode [0o700] carries no group or other bit,
    whatever the umask. *)
Lemma owner_only (m : Z) : Z.land (Z.ldiff o700 m) o077 = 0.
Proof.
  apply Z.bits_inj'. intros n Hn.
  rewrite Z.land_spec, Z.ldiff_spec, Z.bits_0.
  assert (H : Z.testbit o700 n && Z.testbit o077 n = false).
  { rewrite <- Z.land_spec. change (Z.land o700 o077) with 0. apply Z.bits_0. }
  destruct (Z.testbit o700 n), (Z.testbit o077 n), (Z.testbit m n);
    simpl in *; congruence.
Qed.

(** C10.  When at least one URL is configured and all of them resolve,
    the cache directory is made with mode [0o700] under the umask of the
    caller, the umask is then 0o022 for the whole loop, and the last
    operation puts the caller's umask back.  A cache entry created by the
    loop therefore has mode [0o644], readable by everyone, inside a
    directory that, when this run created it, has no group or other
    bit. *)
Theorem resolve_sources_umask (parsed_args : Namespace)
    (w w' : World) (srcs : list source) :
  all_urls parsed_args <> [] ->
  resolve_sources sha3_256 env parsed_args w = Ok srcs w' ->
  umask w' = umask w
  /\ (exists evs,
        trace w' =
          trace w
          ++ [EvMkdir (path_join (STATE_DIR env) "pubkeys") o700; EvUmask o022]
          ++ evs ++ [EvUmask (umask w)]
        /\ Forall (fun e => is_umask e = false) evs)
  /\ (forall u,
        In u (all_urls parsed_args) ->
        fs w !! cache_file_path sha3_256 (path_join (STATE_DIR env) "pubkeys") u
          = None ->
        exists data,
          fs w' !! cache_file_path sha3_256
                     (path_join (STATE_DIR env) "pubkeys") u
            = Some (File o644 data))
  /\ Z.land o644 o004 = o004
  /\ (fs w !! path_join (STATE_DIR env) "pubkeys" = None ->
        fs w' !! path_join (STATE_DIR env) "pubkeys"
          = Some (Dir (Z.ldiff o700 (umask w))))
  /\ Z.land (Z.ldiff o700 (umask w)) o077 = 0.
Proof.
  intros Hne Hrun.
  destruct (resolve_sources_urls_ok _ _ _ _ Hne Hrun)
    as (w1 & w2 & Hmk & Hloop & ->).
  destruct (mkdir_ok _ _ _ _ Hmk) as (Hum1 & Htr1 & Hnew & _ & Hlong & _).
  destruct (resolve_urls_ok _ _ _ _ _ _ Hloop)
    as (_ & _ & Hall & Hframe & evs & Htr & Hevs).
  cbn [fs umask trace set_umask log] in *.
  split; [reflexivity|]. split; [|split; [|split; [|split]]].
  - exists evs. split; [|exact Hevs].
    rewrite Htr, Htr1. now rewrite <- !app_assoc.
  - intros u Hin Hnone.
    set (slot := cache_file_path sha3_256 (path_join (STATE_DIR env) "pubkeys") u)
      in *.
    assert (H1 : fs w1 !! slot = None).
    { rewrite Hlong; [exact Hnone|].
      apply path_join_length, cache_dir_plain. }
    destruct (Hframe slot) as [Hsame | [_ Hfile]].
    + specialize (Hall u Hin). fold slot in Hall.
      rewrite Hsame, H1 in Hall. now destruct Hall.
    + exact Hfile.
  - reflexivity.
  - intros Hnone. specialize (Hnew Hnone).
    destruct (Hframe (path_join (STATE_DIR env) "pubkeys")) as [-> | [Habs _]].
    + exact Hnew.
    + rewrite Hnew in Habs. discriminate.
  - apply owner_only.
Qed.

(** ** Assembly without URLs *)

Lemma no_cache_op_no_get (evs : list event) :
  Forall (fun e => is_cache_op e = false) evs -> List.filter is_get evs = [].
Proof.
  induction 1 as [|e evs He _ IH]; [reflexivity|].
  simpl. destruct e; try discriminate; simpl; exact IH.
Qed.

(** C9.  When neither [--url] nor [--github] is given, whatever assembly
    does next, it performs no GET, and none of the operations it ever
    applies to the key cache ([mkdir], umask change, creation of a cache
    entry) takes place.  The umask is unchanged, and the only path whose
    entry can differ afterwards is a temporary file that did not exist
    before. *)
Theorem make_authorized_keys_offline (parsed_args : Namespace) (w : World) :
  or_empty (ns_url parsed_args) = [] ->
  or_empty (ns_github parsed_args) = [] ->
  exists evs,
    trace (final_world (make_authorized_keys sha3_256 env parsed_args w))
      = trace w ++ evs
    /\ Forall (fun e => is_cache_op e = false) evs
    /\ fetches (final_world (make_authorized_keys sha3_256 env parsed_args w))
       = fetches w
    /\ umask (final_world (make_authorized_keys sha3_256 env parsed_args w))
       = umask w
    /\ (forall k,
          fs (final_world (make_authorized_keys sha3_256 env parsed_args w)) !! k
            = fs w !! k
          \/ (fs w !! k = None /\ In (EvMkstemp k) evs)).
Proof.
  intros Hu Hg.
  assert (Hfetch : forall w' evs,
    trace w' = trace w ++ evs ->
    Forall (fun e => is_cache_op e = false) evs ->
    fetches w' = fetches w).
  { intros w' evs Htr Hevs. unfold fetches. rewrite Htr, List.filter_app.
    rewrite length_app, (no_cache_op_no_get evs Hevs). simpl. lia. }
  unfold make_authorized_keys; simpl.
  rewrite resolve_sources_no_urls by now apply all_urls_nil.
  destruct (or_empty (ns_file parsed_args)) as [|f1 [|f2 more]]; simpl.
  - unfold path_exists; simpl.
    destruct (bool_decide (is_Some (fs w !! default_authorized_keys env)));
      simpl.
    + exists [EvStat (default_authorized_keys env)].
      split; [reflexivity|]. split; [repeat constructor|].
      split; [now rewrite fetches_log|]. split; [reflexivity|]. now left.
    + eexists [EvStat (default_authorized_keys env); EvStderr _].
      split; [now rewrite <- app_assoc|]. split; [repeat constructor|].
      split; [now rewrite !fetches_log|]. split; [reflexivity|]. now left.
  - exists []. rewrite app_nil_r. repeat split; auto.
  - unfold merge_files; simpl.
    destruct (NamedTemporaryFile env w) as [tmp w0|e w0|w0] eqn:Htmp; simpl.
    + apply mkstemp_inner_ok in Htmp as (Hfresh & Hfs & Hum & Htr).
      exists [EvMkstemp tmp]. split; [exact Htr|].
      split; [repeat constructor|].
      split; [apply (Hfetch _ [EvMkstemp tmp] Htr); repeat constructor|].
      split; [exact Hum|].
      intros k. rewrite Hfs. destruct (decide (k = tmp)) as [->|Hk].
      * right. split; [exact Hfresh | now left].
      * left. now rewrite lookup_insert_ne by congruence.
    + apply mkstemp_inner_raise in Htmp as (Hfs & Hum & Htr).
      exists []. rewrite app_nil_r. split; [exact Htr|].
      split; [constructor|].
      split; [unfold fetches; now rewrite Htr|].
      split; [exact Hum|]. intros k. left. now rewrite Hfs.
    + now apply mkstemp_inner_not_replaced in Htmp.
Qed.

(** ** The host key *)

(** C5.  The host key lives at [STATE_DIR / host_ed25519_key].  When that
    file exists (inside its state directory), [ensure_host_key] returns
    its path, runs no program and leaves the file system exactly as it
    was, so a repeated call does the same.  When it does not exist,
    [ssh-keygen] is run once, for an Ed25519 key ([-t ed25519]) with an
    empty passphrase (the empty argument after [-N]) written to that path
    ([-f]); the path is returned when the program exits with status 0, and
    the failure is raised otherwise. *)
Theorem ensure_host_key_spec (w : World) :
  (forall n m,
      fs w !! path_join (STATE_DIR env) "host_ed25519_key" = Some n ->
      fs w !! STATE_DIR env = Some (Dir m) ->
      exists w',
        ensure_host_key env w
          = Ok (path_join (STATE_DIR env) "host_ed25519_key") w'
        /\ fs w' = fs w
        /\ trace w' =
             trace w
             ++ [EvMkdir (STATE_DIR env) o700;
                 EvStat (path_join (STATE_DIR env) "host_ed25519_key")]) /\
  (forall w1,
      fs w !! path_join (STATE_DIR env) "host_ed25519_key" = None ->
      mkdir (STATE_DIR env) o700 w = Ok tt w1 ->
      let argv :=
        ["ssh-keygen"; "-q"; "-N"; EmptyString; "-t"; "ed25519"; "-f";
         path_join (STATE_DIR env) "host_ed25519_key"] in
      let w2 :=
        log (EvRun argv)
          (log (EvStat (path_join (STATE_DIR env) "host_ed25519_key")) w1) in
      trace w2 =
        trace w
        ++ [EvMkdir (STATE_DIR env) o700;
            EvStat (path_join (STATE_DIR env) "host_ed25519_key");
            EvRun argv]
      /\ ensure_host_key env w =
          match spawn env (S (length (trace w1))) argv (fs w1) with
          | Some (rc, fs') =>
              if rc =? 0
              then Ok (path_join (STATE_DIR env) "host_ed25519_key")
                      (set_fs fs' w2)
              else Raise (CalledProcessError rc) (set_fs fs' w2)
          | None => Raise (FileNotFoundError "ssh-keygen") w2
          end).
Proof.
  split.
  - intros n m Hkey Hdir.
    unfold ensure_host_key, host_key_path, mkdir, path_exists; simpl.
    rewrite Hdir. simpl.
    rewrite bool_decide_eq_true_2 by (rewrite Hkey; eauto). simpl.
    eexists. split; [reflexivity|]. split; [reflexivity|].
    cbn [trace log]. now rewrite <- app_assoc.
  - intros w1 Hkey Hmk argv w2.
    destruct (mkdir_ok _ _ _ _ Hmk) as (_ & Htr1 & _ & _ & Hlong & _).
    assert (Hkey1 : fs w1 !! path_join (STATE_DIR env) "host_ed25519_key"
                    = None).
    { rewrite Hlong; [exact Hkey|].
      apply path_join_length, STATE_DIR_plain. }
    split.
    + subst w2. simpl. rewrite Htr1. now rewrite <- !app_assoc.
    + unfold ensure_host_key, host_key_path. cbn [bind]. rewrite Hmk.
      unfold path_exists. cbn [bind fs log].
      rewrite bool_decide_eq_false_2
        by (rewrite Hkey1; intros [? ?]; discriminate).
      cbn [negb]. unfold subprocess_run, check_returncode, ssh_keygen_argv,
        host_key_path. cbn [bind fs log trace].
      rewrite length_app. simpl length.
      replace (length (trace w1) + 1)%nat with (S (length (trace w1))) by lia.
      fold argv.
      destruct (spawn env (S (length (trace w1))) argv (fs w1))
        as [[rc fs']|]; [|reflexivity].
      cbn [bind]. destruct (rc =? 0); reflexivity.
Qed.

End Properties.

(** ** The theorems at work on the example machine *)

Lemma do_get_spec_witness :
  do_get Demo.redirected Demo.url Demo.empty_disk
  = Ok Demo.key_text
      (final_world (do_get Demo.redirected Demo.url Demo.empty_disk))
  /\ trace (final_world (do_get Demo.redirected Demo.url Demo.empty_disk))
     = [EvGet Demo.url; EvRedirect "https://cdn.example.org/keys"].
Proof.
  destruct (do_get_spec Demo.redirected Demo.url Demo.empty_disk)
    as (Htr & _ & _ & H & _).
  split; [apply (H 200); [reflexivity | lia] | exact Htr].
Defined.

(** C7 fails as stated: 304 is not a success status, yet the fetcher
    returns the (empty) text of such a response instead of failing. *)
Lemma do_get_returns_on_304 :
  snd (net Demo.not_modified 0 Demo.url) = Response 304 EmptyString
  /\ do_get Demo.not_modified Demo.url Demo.empty_disk
     = Ok EmptyString (log (EvGet Demo.url) Demo.empty_disk).
Proof. split; reflexivity. Qed.

Lemma launch_spec_witness :
  (exists w',
      launch (Demo.machine 200 None) create_parser "cfg" "/tmp/tmp0"
        Demo.host_key Demo.empty_disk = Raise TypeError w'
      /\ launched w' = false) /\
  launch Demo.env (Demo.args_port "8022") "cfg" "/tmp/tmp0" Demo.host_key
    Demo.empty_disk
  = Replaced
      (log (EvExecv "/usr/sbin/sshd"
              [Some "/usr/sbin/sshd"; Some "-Dp"; Some "8022"; Some "-f";
               Some "/tmp/tmp0"; Some "-h"; Some Demo.host_key])
         Demo.empty_disk).
Proof.
  split.
  - destruct (launch_spec (Demo.machine 200 None) create_parser "cfg" "/tmp/tmp0"
                Demo.host_key Demo.empty_disk) as (H & _).
    destruct (H eq_refl) as (w' & Hrun & Hl & _).
    exists w'. split; [exact Hrun | exact Hl].
  - destruct (launch_spec Demo.env (Demo.args_port "8022") "cfg" "/tmp/tmp0"
                Demo.host_key Demo.empty_disk) as (_ & H & _).
    rewrite (H "/usr/sbin/sshd" "8022" eq_refl (or_introl eq_refl)).
    reflexivity.
Defined.

Lemma make_authorized_keys_no_sources_witness :
  (exists w',
      make_authorized_keys Demo.digest Demo.env create_parser
        Demo.with_default_keys
      = Ok (SrcPath "/home/alice/.ssh/authorized_keys") w') /\
  (exists w',
      main Demo.digest Demo.env create_parser Demo.empty_disk
      = Raise (SystemExit 2) w' /\ launched w' = false).
Proof.
  split.
  - destruct (make_authorized_keys_no_sources Demo.digest Demo.env
                create_parser Demo.with_default_keys eq_refl eq_refl eq_refl)
      as (H & _).
    destruct H as (w' & Hrun & _).
    + eexists. vm_compute. reflexivity.
    + exists w'. exact Hrun.
  - destruct (make_authorized_keys_no_sources Demo.digest Demo.env
                create_parser Demo.empty_disk eq_refl eq_refl eq_refl)
      as (_ & H).
    destruct H as (w' & _ & Hmain & Hl & _).
    + vm_compute. reflexivity.
    + exists w'. split; [exact Hmain | exact Hl].
Defined.

Lemma make_authorized_keys_single_source_witness :
  make_authorized_keys Demo.digest Demo.env (Demo.args_files ["fileA"])
    Demo.two_files
  = Ok (SrcStr "fileA") Demo.two_files.
Proof.
  destruct (make_authorized_keys_single_source Demo.digest Demo.env
              (Demo.args_files ["fileA"]) Demo.two_files) as (_ & H).
  apply H; reflexivity.
Defined.

(** The scenario of two key files, [fileA] and [fileB]. *)
Lemma make_authorized_keys_file_sources_fail_witness :
  exists w',
    make_authorized_keys Demo.digest Demo.env
      (Demo.args_files ["fileA"; "fileB"]) Demo.two_files
    = Raise AttributeError w'
    /\ fs w' = <["/tmp/tmp0" := File o600 []]> (fs Demo.two_files).
Proof.
  destruct (make_authorized_keys_file_sources_fail Demo.digest Demo.env
              (Demo.args_files ["fileA"; "fileB"]) Demo.two_files
              Demo.two_files [SrcStr "fileA"; SrcStr "fileB"] "fileA" ["fileB"]
              eq_refl eq_refl) as (_ & H).
  - simpl. lia.
  - apply H. vm_compute. reflexivity.
Defined.

Lemma resolve_url_twice_witness :
  exists w2,
    resolve_url Demo.digest Demo.env Demo.cache_dir Demo.url Demo.after_first
    = Ok (SrcPath (path_join Demo.cache_dir (Demo.digest Demo.url))) w2
    /\ fetches w2 = 1%nat.
Proof.
  destruct (resolve_url_twice Demo.digest Demo.env Demo.cache_dir Demo.url
              Demo.empty_disk Demo.after_first
              (SrcPath (path_join Demo.cache_dir (Demo.digest Demo.url))))
    as (_ & w2 & Hrun & _ & _ & Hone & _).
  - vm_compute. reflexivity.
  - exists w2. split; [exact Hrun|]. apply Hone. vm_compute. reflexivity.
Defined.

Lemma resolve_sources_umask_witness :
  umask Demo.after_resolve = umask Demo.empty_disk
  /\ exists data,
       fs Demo.after_resolve !! path_join Demo.cache_dir (Demo.digest Demo.url)
       = Some (File o644 data).
Proof.
  destruct (resolve_sources_umask Demo.digest Demo.env Demo.args_url
              Demo.empty_disk Demo.after_resolve
              [SrcPath (path_join Demo.cache_dir (Demo.digest Demo.url))])
    as (Hum & _ & Hnew & _).
  - discriminate.
  - vm_compute. reflexivity.
  - split; [exact Hum|].
    apply (Hnew Demo.url); [now left | vm_compute; reflexivity].
Defined.

Lemma make_authorized_keys_offline_witness :
  fetches (final_world (make_authorized_keys Demo.digest Demo.env
                          (Demo.args_files ["fileA"]) Demo.two_files))
  = fetches Demo.two_files.
Proof.
  destruct (make_authorized_keys_offline Demo.digest Demo.env
              (Demo.args_files ["fileA"]) Demo.two_files eq_refl eq_refl)
    as (evs & _ & _ & H & _).
  exact H.
Defined.

Lemma ensure_host_key_spec_witness :
  (exists w',
      ensure_host_key Demo.env Demo.with_host_key = Ok Demo.host_key w'
      /\ fs w' = fs Demo.with_host_key) /\
  (exists w',
      ensure_host_key Demo.env Demo.empty_disk = Ok Demo.host_key w'
      /\ fs w' !! Demo.host_key
         = Some (File o600 (list_byte_of_string "PRIV"))).
Proof.
  split.
  - destruct (ensure_host_key_spec Demo.env Demo.with_host_key) as (H & _).
    destruct (H (File o600 (list_byte_of_string "PRIV")) o700)
      as (w' & Hrun & Hfs & _).
    + vm_compute. reflexivity.
    + vm_compute. reflexivity.
    + exists w'. split; [exact Hrun | exact Hfs].
  - destruct (ensure_host_key_spec Demo.env Demo.empty_disk) as (_ & H).
    destruct (H Demo.after_mkdir) as (_ & Hrun).
    + vm_compute. reflexivity.
    + vm_compute. reflexivity.
    + rewrite Hrun. eexists. split; vm_compute; reflexivity.
Defined.

(** * Further properties of the program *)

Section Behaviour.

Variable sha3_256 : string -> string.
Variable env : Env.

(** ** One turn of the cache loop, in full *)

Lemma fetched_redirects (hops : list string) :
  fetched (map EvRedirect hops) = [].
Proof. induction hops; [reflexivity | assumption]. Qed.

Lemma fetched_miss (slot url : string) (hops : list string)
    (tail : list event) :
  fetched tail = [] ->
  fetched ([EvStat slot; EvGet url] ++ map EvRedirect hops ++ tail) = [url].
Proof.
  intros Htail.
  assert (H : fetched (map EvRedirect hops ++ tail) = []).
  { induction hops; [exact Htail | exact IHhops]. }
  change (url :: fetched (map EvRedirect hops ++ tail) = [url]).
  now rewrite H.
Qed.

Lemma fetched_miss_end (slot url : string) (hops : list string) :
  fetched ([EvStat slot; EvGet url] ++ map EvRedirect hops) = [url].
Proof.
  change (url :: fetched (map EvRedirect hops) = [url]).
  now rewrite fetched_redirects.
Qed.

Lemma launched_set_fs (f : gmap string node) (w : World) :
  launched (set_fs f w) = launched w.
Proof. reflexivity. Qed.

Lemma launched_redirects (hops : list string) (w : World) :
  launched (log_all (map EvRedirect hops) w) = launched w.
Proof.
  unfold launched, log_all. cbn [trace]. rewrite existsb_app.
  replace (existsb is_exec (map EvRedirect hops)) with false;
    [apply orb_false_r|].
  induction hops; [reflexivity | assumption].
Qed.

(** Case analysis on a turn of the loop: a hit; or a miss followed by a
    request that fails, an error status, or a write that is refused, cut
    short, not encodable or complete. *)
Ltac resolve_url_cases cache_dir url w Hslot :=
  destruct (fs w !! cache_file_path sha3_256 cache_dir url) eqn:Hslot;
  [ rewrite (resolve_url_hit sha3_256 env cache_dir url w)
      by (rewrite Hslot; eauto)
  | rewrite (resolve_url_miss sha3_256 env cache_dir url w Hslot); cbv zeta;
    let hops := fresh "hops" in
    let status := fresh "status" in
    let body := fresh "body" in
    let Herr := fresh "Herr" in
    let cut := fresh "cut" in
    let data := fresh "data" in
    destruct (net env (S (length (trace w))) url)
      as [hops [status body|]] eqn:?; cbn [fst snd];
    [ destruct ((400 <=? status) && (status <? 600)) eqn:Herr;
      [ | cbn [bind]; rewrite open_w_write_new by exact Hslot;
          destruct (write_fault env _ _) as [[|cut]|];
          destruct (locale_encode env body) as [data|]; cbn [ret] ]
    | ] ].


(** X9.  On a cache miss answered with a status outside 400-599, when the
    text of the response can be encoded in the locale encoding and the
    write goes through, the entry is created with mode [0o666 & ~umask]
    and holds that encoding of the text (not the bytes the server sent);
    reading it back, as the merge does, returns exactly those bytes. *)
Theorem resolve_url_stores_text (cache_dir url : string) (w : World)
    (hops : list string) (status : Z) (body : string)
    (data : list Byte.byte) :
  fs w !! cache_file_path sha3_256 cache_dir url = None ->
  net env (S (length (trace w))) url = (hops, Response status body) ->
  ~ (400 <= status < 600) ->
  locale_encode env body = Some data ->
  write_fault env (length (trace w) + 2 + length hops)
    (cache_file_path sha3_256 cache_dir url) = None ->
  exists w',
    resolve_url sha3_256 env cache_dir url w
      = Ok (SrcPath (cache_file_path sha3_256 cache_dir url)) w'
    /\ fs w' =
         <[cache_file_path sha3_256 cache_dir url :=
             File (Z.ldiff o666 (umask w)) data]> (fs w)
    /\ read_bytes (SrcPath (cache_file_path sha3_256 cache_dir url)) w'
       = Ok data (log (EvRead (cache_file_path sha3_256 cache_dir url)) w').
Proof.
  intros Hslot Hnet Hok Henc Hfault.
  rewrite (resolve_url_miss sha3_256 env cache_dir url w Hslot). cbv zeta.
  rewrite Hnet. cbn [fst snd].
  replace ((400 <=? status) && (status <? 600)) with false
    by (symmetry; apply andb_false_iff; lia).
  cbn [bind]. rewrite open_w_write_new by exact Hslot.
  cbn [trace log log_all]. rewrite !length_app, length_map. cbn [length].
  replace (length (trace w) + 1 + 1 + length hops)%nat
    with (length (trace w) + 2 + length hops)%nat by lia.
  rewrite Hfault, Henc. cbn [ret].
  eexists. split; [reflexivity|]. split; [reflexivity|].
  unfold read_bytes. cbn [fs set_fs log]. now rewrite lookup_insert_eq.
Qed.

(** ** Every outcome of the cache loop *)

Lemma keeps_files_refl (w : World) : keeps_files w w.
Proof. intros k n H. exact H. Qed.

Lemma keeps_files_same (w w' : World) : fs w' = fs w -> keeps_files w w'.
Proof. intros Hfs k n H. now rewrite Hfs. Qed.

Lemma keeps_files_trans (w1 w2 w3 : World) :
  keeps_files w1 w2 -> keeps_files w2 w3 -> keeps_files w1 w3.
Proof. intros H12 H23 k n H. apply H23, H12, H. Qed.

Lemma keeps_files_insert (w w' : World) (k : string) (n : node) :
  fs w !! k = None -> fs w' = <[k := n]> (fs w) -> keeps_files w w'.
Proof.
  intros Hnone Hfs k' n' Hk'. rewrite Hfs.
  rewrite lookup_insert_ne; [exact Hk'|]. intros ->. congruence.
Qed.

Lemma keeps_files_none (w w' : World) (k : string) :
  keeps_files w w' -> fs w' !! k = None -> fs w !! k = None.
Proof.
  intros Hkeep Hnone. destruct (fs w !! k) as [n|] eqn:Hk; [|reflexivity].
  apply Hkeep in Hk. congruence.
Qed.

Lemma resolve_url_outcome (cache_dir url : string) (w : World) :
  keeps_files w (final_world (resolve_url sha3_256 env cache_dir url w))
  /\ umask (final_world (resolve_url sha3_256 env cache_dir url w)) = umask w
  /\ launched (final_world (resolve_url sha3_256 env cache_dir url w))
     = launched w
  /\ (forall w', resolve_url sha3_256 env cache_dir url w <> Replaced w')
  /\ (forall p w',
        resolve_url sha3_256 env cache_dir url w = Ok p w' ->
        is_Some (fs w' !! cache_file_path sha3_256 cache_dir url))
  /\ exists evs,
       trace (final_world (resolve_url sha3_256 env cache_dir url w))
         = trace w ++ evs
       /\ (fetched evs = []
           \/ (fetched evs = [url]
               /\ fs w !! cache_file_path sha3_256 cache_dir url = None)).
Proof.
  split; [|split; [|split; [|split; [|split]]]].
  6: {
    resolve_url_cases cache_dir url w Hslot;
      cbn [final_world trace log log_all set_fs];
      rewrite <- ?app_assoc; eexists; (split; [reflexivity|]);
      first
        [ left; reflexivity
        | right; split; [|reflexivity];
          first [ apply fetched_miss_end
                | apply fetched_miss; reflexivity ] ]. }
  - resolve_url_cases cache_dir url w Hslot; cbn [final_world];
      try (apply keeps_files_same; reflexivity);
      (eapply keeps_files_insert; [exact Hslot | reflexivity]).
  - resolve_url_cases cache_dir url w Hslot; reflexivity.
  - resolve_url_cases cache_dir url w Hslot; cbn [final_world];
      rewrite ?launched_set_fs, ?launched_log, ?launched_redirects,
        ?launched_log by reflexivity; reflexivity.
  - intros w'. resolve_url_cases cache_dir url w Hslot; discriminate.
  - intros p w'. resolve_url_cases cache_dir url w Hslot;
      try discriminate; intros [= <- <-]; cbn [fs set_fs log].
    + rewrite Hslot. eauto.
    + rewrite lookup_insert_eq. eauto.
Qed.

Lemma resolve_urls_outcome (cache_dir : string) (urls : list string) :
  forall (sources : list source) (w : World),
    keeps_files w
      (final_world (resolve_urls sha3_256 env cache_dir urls sources w))
    /\ umask (final_world (resolve_urls sha3_256 env cache_dir urls sources w))
       = umask w
    /\ launched
         (final_world (resolve_urls sha3_256 env cache_dir urls sources w))
       = launched w
    /\ (forall w',
          resolve_urls sha3_256 env cache_dir urls sources w <> Replaced w')
    /\ exists evs,
         trace (final_world
                  (resolve_urls sha3_256 env cache_dir urls sources w))
           = trace w ++ evs
         /\ NoDup (fetched evs)
         /\ forall u,
              u ∈ fetched evs ->
              u ∈ urls
              /\ fs w !! cache_file_path sha3_256 cache_dir u = None.
Proof.
  induction urls as [|url rest IH]; intros sources w.
  - cbn [resolve_urls ret final_world].
    repeat split; auto using keeps_files_refl; try discriminate.
    exists []. rewrite app_nil_r. split; [reflexivity|].
    split; [constructor|]. intros u Hu. cbn in Hu. now apply elem_of_nil in Hu.
  - cbn [resolve_urls bind].
    destruct (resolve_url_outcome cache_dir url w)
      as (Hk1 & Hu1 & Hl1 & Hn1 & Hs1 & evs1 & Ht1 & Hf1).
    destruct (resolve_url sha3_256 env cache_dir url w) as [p w1|e w1|w1] eqn:H1;
      cbn [final_world] in *.
    + destruct (IH (sources ++ [p]) w1)
        as (Hk2 & Hu2 & Hl2 & Hn2 & evs2 & Ht2 & Hnd2 & Hf2).
      split; [eapply keeps_files_trans; eassumption|].
      split; [congruence|]. split; [congruence|].
      split; [exact Hn2|].
      exists (evs1 ++ evs2). split; [rewrite Ht2, Ht1; apply eq_sym, app_assoc|].
      unfold fetched in *. rewrite omap_app.
      assert (Htail : forall u,
        u ∈ omap (fun e => match e with EvGet u => Some u | _ => None end) evs2 ->
        u ∈ rest /\ fs w !! cache_file_path sha3_256 cache_dir u = None).
      { intros u Hu. destruct (Hf2 u Hu) as [Hin Hnone].
        split; [exact Hin|]. eapply keeps_files_none; eassumption. }
      destruct Hf1 as [-> | [-> Hmiss]]; cbn [app].
      * split; [exact Hnd2|]. intros u Hu.
        destruct (Htail u Hu). split; [now apply elem_of_cons; right | auto].
      * split.
        -- apply NoDup_cons. split; [|exact Hnd2].
           intros Hin. destruct (Hf2 url Hin) as [_ Hnone].
           destruct (Hs1 p w1 eq_refl) as [n Hn]. congruence.
        -- intros u Hu. apply elem_of_cons in Hu as [-> | Hu].
           ++ split; [apply elem_of_cons; now left | exact Hmiss].
           ++ destruct (Htail u Hu).
              split; [now apply elem_of_cons; right | auto].
    + split; [exact Hk1|]. split; [exact Hu1|]. split; [exact Hl1|].
      split; [discriminate|].
      exists evs1. split; [exact Ht1|].
      destruct Hf1 as [-> | [-> Hmiss]].
      * split; [constructor|]. intros u Hu. now apply elem_of_nil in Hu.
      * split; [apply NoDup_singleton|]. intros u Hu.
        apply list_elem_of_singleton in Hu as ->.
        split; [apply elem_of_cons; now left | exact Hmiss].
    + now destruct (Hn1 w1).
Qed.

(** X5.  Whatever the outcome of the loop over the URLs, every call of
    [requests.get] it made was for a URL of the list whose cache slot was
    empty when the loop began, and no URL was passed to it twice: a
    repeated URL is fetched once.  (The further GETs that [requests]
    sends on its own when it follows a redirect are not calls of the
    program and are not counted here.) *)
Theorem resolve_urls_fetches_misses_once (cache_dir : string)
    (urls : list string) (sources : list source) (w : World) :
  exists evs,
    trace (final_world (resolve_urls sha3_256 env cache_dir urls sources w))
      = trace w ++ evs
    /\ NoDup (fetched evs)
    /\ forall u,
         u ∈ fetched evs ->
         u ∈ urls /\ fs w !! cache_file_path sha3_256 cache_dir u = None.
Proof.
  destruct (resolve_urls_outcome cache_dir urls sources w)
    as (_ & _ & _ & _ & H).
  exact H.
Qed.

(** ** Every outcome of resolution *)

Lemma mkdir_outcome (p : string) (mode : Z) (w : World) :
  keeps_files w (final_world (mkdir p mode w))
  /\ umask (final_world (mkdir p mode w)) = umask w
  /\ launched (final_world (mkdir p mode w)) = launched w
  /\ (forall w', mkdir p mode w <> Replaced w')
  /\ (forall e w',
        mkdir p mode w = Raise e w' ->
        fs w' = fs w /\ umask w' = umask w
        /\ ((e = FileExistsError p
             /\ exists m data, fs w !! p = Some (File m data))
            \/ (e = NotADirectoryError p /\ fs w !! p = None))).
Proof.
  destruct (mkdir p mode w) as [[] w1|e w1|w1] eqn:Hmk; cbn [final_world].
  - destruct (mkdir_ok _ _ _ _ Hmk) as (Hum & Htr & _ & _ & _ & Hall).
    split.
    { intros k n Hk. destruct (Hall k) as [-> | [Hnone _]];
        [exact Hk | congruence]. }
    split; [exact Hum|]. split; [|split; discriminate].
    unfold launched. rewrite Htr, existsb_app. cbn. now rewrite orb_false_r.
  - unfold mkdir in Hmk.
    destruct (fs w !! p) as [[m d|m]|] eqn:Hp; [|discriminate|].
    + injection Hmk as <- <-.
      split; [now apply keeps_files_same|]. split; [reflexivity|].
      split; [now rewrite launched_log|]. split; [discriminate|].
      intros e' w' [= <- <-]. split; [reflexivity|]. split; [reflexivity|].
      left. eauto.
    + destruct (make_parents _ _ _); [discriminate|].
      injection Hmk as <- <-.
      split; [now apply keeps_files_same|]. split; [reflexivity|].
      split; [now rewrite launched_log|]. split; [discriminate|].
      intros e' w' [= <- <-]. split; [reflexivity|]. split; [reflexivity|].
      now right.
  - unfold mkdir in Hmk.
    destruct (fs w !! p) as [[m d|m]|]; try discriminate.
    destruct (make_parents _ _ _); discriminate.
Qed.


Lemma fetches_set_umask (m : Z) (w : World) :
  fetches (set_umask m w) = fetches w.
Proof. reflexivity. Qed.

Lemma resolve_urls_warm (cache_dir : string) (urls : list string) :
  forall (sources : list source) (w : World),
    (forall u, In u urls ->
               is_Some (fs w !! cache_file_path sha3_256 cache_dir u)) ->
    exists w',
      resolve_urls sha3_256 env cache_dir urls sources w
        = Ok (sources
              ++ map (fun u => SrcPath (cache_file_path sha3_256 cache_dir u))
                   urls) w'
      /\ fs w' = fs w /\ umask w' = umask w /\ fetches w' = fetches w.
Proof.
  induction urls as [|url rest IH]; intros sources w Hall.
  - exists w. cbn. now rewrite app_nil_r.
  - cbn [resolve_urls bind].
    rewrite resolve_url_hit by (apply Hall; now left).
    destruct (IH (sources ++ [SrcPath (cache_file_path sha3_256 cache_dir url)])
                (log (EvStat (cache_file_path sha3_256 cache_dir url)) w))
      as (w' & Hrun & Hfs & Hum & Hfe).
    { intros u Hu. apply Hall. now right. }
    exists w'. rewrite Hrun, <- app_assoc.
    split; [reflexivity|]. split; [exact Hfs|]. split; [exact Hum|].
    rewrite Hfe. now apply fetches_log.
Qed.

(** X4.  With a warm cache, that is when the cache directory exists and
    every configured URL already has its entry, resolution succeeds
    whatever the network would answer: it makes no GET, leaves the file
    system untouched and restores the umask.  Cached keys are never
    refreshed. *)
Theorem resolve_sources_warm_cache (parsed_args : Namespace) (w : World)
    (m : Z) :
  fs w !! path_join (STATE_DIR env) "pubkeys" = Some (Dir m) ->
  (forall u,
      In u (all_urls parsed_args) ->
      is_Some (fs w !! cache_file_path sha3_256
                         (path_join (STATE_DIR env) "pubkeys") u)) ->
  exists w',
    resolve_sources sha3_256 env parsed_args w
      = Ok (map SrcStr (or_empty (ns_file parsed_args))
            ++ map (fun u => SrcPath (cache_file_path sha3_256
                                        (path_join (STATE_DIR env) "pubkeys") u))
                 (all_urls parsed_args)) w'
    /\ fs w' = fs w /\ umask w' = umask w /\ fetches w' = fetches w.
Proof.
  intros Hdir Hall. unfold resolve_sources, ensure_cache_dir, os_umask, mkdir.
  destruct (all_urls parsed_args) as [|url rest] eqn:Hurls.
  - exists w. cbn. now rewrite app_nil_r.
  - cbn [bind ret fs log]. rewrite Hdir. cbn [bind ret fs log umask set_umask].
    match goal with
    | |- context [resolve_urls _ _ ?c ?us ?ss ?w0] =>
        destruct (resolve_urls_warm c us ss w0) as (w2 & Hrun & Hfs & Hum & Hfe)
    end.
    { intros u Hu. cbn [fs set_umask log]. apply Hall, Hu. }
    rewrite Hrun. eexists. split; [reflexivity|].
    cbn [fs umask set_umask log]. split; [exact Hfs|]. split; [reflexivity|].
    rewrite fetches_set_umask, fetches_log by reflexivity. rewrite Hfe.
    rewrite fetches_set_umask. now rewrite !fetches_log.
Qed.


(** ** Every outcome of assembly *)

Lemma merge_loop_outcome (tmpfile : string) (files : list source) :
  forall w : World,
    (forall k, k <> tmpfile ->
               fs (final_world (merge_loop tmpfile files w)) !! k = fs w !! k)
    /\ umask (final_world (merge_loop tmpfile files w)) = umask w
    /\ launched (final_world (merge_loop tmpfile files w)) = launched w
    /\ (forall w', merge_loop tmpfile files w <> Replaced w').
Proof.
  induction files as [|file rest IH]; intros w.
  - cbn. repeat split; auto; discriminate.
  - cbn [merge_loop bind]. destruct file as [s|p]; cbn [read_bytes raise].
    + cbn. repeat split; auto; discriminate.
    + destruct (fs w !! p) as [[m data|m]|] eqn:Hp; cbn [final_world];
        try (cbn [fs umask log]; rewrite launched_log by reflexivity;
             repeat split; auto; discriminate).
      unfold tmpfile_write. cbn [bind fs log].
      destruct (IH (set_fs (alter (append_data data) tmpfile (fs w))
                      (log (EvRead p) w))) as (Hfs & Hum & Hl & Hn).
      split; [|split; [|split]].
      * intros k Hk. rewrite (Hfs k Hk). cbn [fs set_fs log].
        now rewrite lookup_alter_ne by congruence.
      * exact Hum.
      * rewrite Hl, launched_set_fs. now apply launched_log.
      * exact Hn.
Qed.

Lemma NamedTemporaryFile_outcome (w : World) :
  keeps_files w (final_world (NamedTemporaryFile env w))
  /\ umask (final_world (NamedTemporaryFile env w)) = umask w
  /\ launched (final_world (NamedTemporaryFile env w)) = launched w
  /\ (forall w', NamedTemporaryFile env w <> Replaced w').
Proof.
  unfold NamedTemporaryFile.
  destruct (mkstemp_inner env TMP_MAX w) as [tmp w0|e w0|w0] eqn:Htmp;
    cbn [final_world].
  - apply mkstemp_inner_ok in Htmp as (Hfresh & Hfs & Hum & Htr).
    split; [eapply keeps_files_insert; eassumption|]. split; [exact Hum|].
    split; [|discriminate].
    unfold launched. rewrite Htr, existsb_app. cbn. now rewrite orb_false_r.
  - apply mkstemp_inner_raise in Htmp as (Hfs & Hum & Htr).
    split; [now apply keeps_files_same|]. split; [exact Hum|].
    split; [|discriminate]. unfold launched. now rewrite Htr.
  - now apply mkstemp_inner_not_replaced in Htmp.
Qed.

Lemma merge_files_outcome (files : list source) (w : World) :
  keeps_files w (final_world (merge_files env files w))
  /\ umask (final_world (merge_files env files w)) = umask w
  /\ launched (final_world (merge_files env files w)) = launched w
  /\ (forall w', merge_files env files w <> Replaced w').
Proof.
  unfold merge_files. cbn [bind].
  destruct (NamedTemporaryFile_outcome w) as (Hk & Hu & Hl & Hn).
  destruct (NamedTemporaryFile env w) as [tmp w0|e w0|w0] eqn:Htmp;
    cbn [final_world] in *; [|repeat split; auto; discriminate|now destruct (Hn w0)].
  apply mkstemp_inner_ok in Htmp as (Hfresh & _).
  destruct (merge_loop_outcome tmp files w0) as (Hfs & Hum & Hl2 & Hn2).
  destruct (merge_loop tmp files w0) as [[] w2|e w2|w2];
    cbn [final_world ret] in *; try (now destruct (Hn2 w2));
    (split; [|split; [congruence|split; [congruence|discriminate]]]);
    intros k n Hkn; rewrite Hfs by (intros ->; congruence); now apply Hk.
Qed.

Lemma resolve_sources_outcome (parsed_args : Namespace) (w : World) :
  keeps_files w (final_world (resolve_sources sha3_256 env parsed_args w))
  /\ launched (final_world (resolve_sources sha3_256 env parsed_args w))
     = launched w
  /\ (forall w', resolve_sources sha3_256 env parsed_args w <> Replaced w').
Proof.
  unfold resolve_sources, ensure_cache_dir, os_umask.
  destruct (all_urls parsed_args) as [|url rest].
  - cbn. repeat split; auto using keeps_files_refl; discriminate.
  - cbn [bind ret].
    destruct (mkdir_outcome (path_join (STATE_DIR env) "pubkeys") o700 w)
      as (Hk1 & _ & Hl1 & Hn1 & _).
    destruct (mkdir (path_join (STATE_DIR env) "pubkeys") o700 w)
      as [[] w1|e1 w1|w1]; cbn [final_world] in *;
      [|repeat split; auto; discriminate|now destruct (Hn1 w1)].
    cbn [umask fs log set_umask].
    match goal with
    | |- context [resolve_urls ?h ?v ?c ?us ?ss ?w0] =>
        destruct (resolve_urls_outcome c us ss w0)
          as (Hk2 & _ & Hl2 & Hn2 & _);
        destruct (resolve_urls h v c us ss w0) as [srcs w2|e2 w2|w2]
    end; cbn [final_world] in *; try (now destruct (Hn2 w2)).
    + split; [|split; [|discriminate]].
      * eapply keeps_files_trans; [exact Hk1|].
        eapply keeps_files_trans; [|apply keeps_files_same; reflexivity].
        eapply keeps_files_trans; [apply keeps_files_same|exact Hk2].
        reflexivity.
      * change (launched (log (EvUmask (umask w1)) w2) = launched w).
        rewrite launched_log by reflexivity. rewrite Hl2.
        change (launched (log (EvUmask o022) w1) = launched w).
        now rewrite launched_log.
    + split; [|split; [|discriminate]].
      * eapply keeps_files_trans; [exact Hk1|].
        eapply keeps_files_trans; [apply keeps_files_same|exact Hk2].
        reflexivity.
      * rewrite Hl2.
        change (launched (log (EvUmask o022) w1) = launched w).
        now rewrite launched_log.
Qed.

Lemma select_authorized_keys_outcome (sources : list source) (w : World) :
  keeps_files w (final_world (select_authorized_keys env sources w))
  /\ launched (final_world (select_authorized_keys env sources w)) = launched w
  /\ (forall w', select_authorized_keys env sources w <> Replaced w').
Proof.
  destruct sources as [|s0 [|s1 more]].
  - unfold select_authorized_keys, path_exists, parser_error. cbn [bind].
    destruct (bool_decide _); cbn [final_world ret].
    + split; [now apply keeps_files_same|].
      split; [now apply launched_log|discriminate].
    + split; [now apply keeps_files_same|].
      split; [now rewrite !launched_log|discriminate].
  - cbn. repeat split; auto using keeps_files_refl; discriminate.
  - change (select_authorized_keys env (s0 :: s1 :: more) w)
      with (merge_files env (s0 :: s1 :: more) w).
    destruct (merge_files_outcome (s0 :: s1 :: more) w) as (? & _ & ? & ?).
    auto.
Qed.

Lemma make_authorized_keys_outcome (parsed_args : Namespace) (w : World) :
  keeps_files w (final_world (make_authorized_keys sha3_256 env parsed_args w))
  /\ launched (final_world (make_authorized_keys sha3_256 env parsed_args w))
     = launched w
  /\ (forall w', make_authorized_keys sha3_256 env parsed_args w <> Replaced w').
Proof.
  unfold make_authorized_keys. cbn [bind].
  destruct (resolve_sources_outcome parsed_args w) as (Hk & Hl & Hn).
  destruct (resolve_sources sha3_256 env parsed_args w) as [srcs w1|e w1|w1];
    cbn [final_world] in *;
    [|repeat split; auto; discriminate|now destruct (Hn w1)].
  destruct (select_authorized_keys_outcome srcs w1) as (Hk2 & Hl2 & Hn2).
  split; [eapply keeps_files_trans; eassumption|].
  split; [congruence | exact Hn2].
Qed.

(** X6.  Assembly never overwrites, truncates or removes anything:
    whatever its outcome, every path that had an entry before still has
    the same entry afterwards.  It only ever adds the cache directory,
    cache entries and a temporary file. *)
Theorem make_authorized_keys_keeps_files (parsed_args : Namespace)
    (w : World) (k : string) (n : node) :
  fs w !! k = Some n ->
  fs (final_world (make_authorized_keys sha3_256 env parsed_args w)) !! k
    = Some n.
Proof.
  destruct (make_authorized_keys_outcome parsed_args w) as (Hk & _).
  apply Hk.
Qed.


(** ** How [main] ends *)

Lemma no_launch_bind {A B} (m : M A) (k : A -> M B) :
  no_launch m -> (forall a, no_launch (k a)) -> no_launch (bind m k).
Proof.
  intros Hm Hk w. cbn [bind]. specialize (Hm w).
  destruct (m w) as [a w1|e w1|w1]; [|exact Hm|exact Hm].
  specialize (Hk a w1). destruct (k a w1); congruence.
Qed.

Lemma ends_in_launch_bind {A} (m : M A) (k : A -> M unit) :
  no_launch m -> (forall a, ends_in_launch env (k a)) ->
  ends_in_launch env (bind m k).
Proof.
  intros Hm Hk w. cbn [bind]. specialize (Hm w).
  destruct (m w) as [a w1|e w1|w1]; [|exact Hm|destruct Hm].
  specialize (Hk a w1). destruct (k a w1); [exact Hk|congruence|exact Hk].
Qed.

Lemma no_launch_make_authorized_keys (parsed_args : Namespace) :
  no_launch (make_authorized_keys sha3_256 env parsed_args).
Proof.
  intros w. destruct (make_authorized_keys_outcome parsed_args w) as (_ & Hl & Hn).
  destruct (make_authorized_keys sha3_256 env parsed_args w) as [p w1|e w1|w1];
    [exact Hl | exact Hl | now destruct (Hn w1)].
Qed.

Lemma no_launch_get_username : no_launch (get_username env).
Proof.
  intros w. unfold get_username. now destruct (pw_name env).
Qed.

Lemma no_launch_NamedTemporaryFile : no_launch (NamedTemporaryFile env).
Proof.
  intros w. destruct (NamedTemporaryFile_outcome w) as (_ & _ & Hl & Hn).
  destruct (NamedTemporaryFile env w) as [p w1|e w1|w1];
    [exact Hl | exact Hl | now destruct (Hn w1)].
Qed.

Lemma no_launch_tmpfile_write_text (tmp text : string) :
  no_launch (tmpfile_write_text env tmp text).
Proof.
  intros w. unfold tmpfile_write_text.
  destruct (locale_encode env text); [|reflexivity].
  destruct (write_fault env _ tmp) as [[|cut]|]; reflexivity.
Qed.

Lemma no_launch_ensure_host_key : no_launch (ensure_host_key env).
Proof.
  intros w. unfold ensure_host_key. cbn [bind].
  destruct (mkdir_outcome (STATE_DIR env) o700 w) as (_ & _ & Hl & Hn & _).
  destruct (mkdir (STATE_DIR env) o700 w) as [[] w1|e w1|w1];
    cbn [final_world] in *; [|exact Hl|now destruct (Hn w1)].
  unfold path_exists. cbn [bind].
  destruct (bool_decide _); cbn [negb ret bind].
  - rewrite launched_log by reflexivity. exact Hl.
  - unfold subprocess_run, check_returncode.
    destruct (spawn env _ _ _) as [[rc fs']|]; cbn [bind].
    + destruct (rc =? 0); cbn [ret raise bind];
        rewrite launched_set_fs, !launched_log by reflexivity; exact Hl.
    + rewrite !launched_log by reflexivity. exact Hl.
Qed.

Lemma ends_in_launch_launch (parsed_args : Namespace)
    (sshd_config sshd_config_file host_key : string) :
  ends_in_launch env
    (launch env parsed_args sshd_config sshd_config_file host_key).
Proof.
  intros w. unfold launch, os_execv.
  destruct (which env "sshd") as [sshd|] eqn:Hwhich;
    destruct (ns_quiet parsed_args); cbn [bind emit];
    try destruct (can_exec env _ sshd);
    try (split; [|eauto]; unfold launched, log; cbn [trace];
         rewrite existsb_app; cbn; apply orb_true_r);
    rewrite ?launched_log by reflexivity; reflexivity.
Qed.

(** X11.  [main] never returns.  Every run ends in one of two ways: an
    exception, and then nothing has been executed in place of the process;
    or the process image has been replaced, and then it is by the [sshd]
    found on the search path.  There is no outcome in between. *)
Theorem main_ends_in_launch (parsed_args : Namespace) (w : World) :
  match main sha3_256 env parsed_args w with
  | Ok _ _ => False
  | Raise _ w' => launched w' = launched w
  | Replaced w' =>
      launched w' = true /\ exists sshd, which env "sshd" = Some sshd
  end.
Proof.
  revert w. change (ends_in_launch env (main sha3_256 env parsed_args)).
  unfold main.
  apply ends_in_launch_bind; [apply no_launch_make_authorized_keys|].
  intros path.
  apply ends_in_launch_bind; [apply no_launch_get_username|]. intros user.
  apply ends_in_launch_bind; [apply no_launch_NamedTemporaryFile|].
  intros sshd_config_file.
  apply ends_in_launch_bind; [apply no_launch_tmpfile_write_text|]. intros _.
  apply ends_in_launch_bind; [apply no_launch_ensure_host_key|].
  intros host_key. apply ends_in_launch_launch.
Qed.




(** ** A successful run, end to end *)

Lemma ensure_host_key_existing (w : World) (n : node) (m : Z) :
  fs w !! host_key_path env = Some n ->
  fs w !! STATE_DIR env = Some (Dir m) ->
  ensure_host_key env w =
    Ok (host_key_path env)
       (log (EvStat (host_key_path env)) (log (EvMkdir (STATE_DIR env) o700) w)).
Proof.
  intros Hkey Hdir. unfold ensure_host_key, mkdir, path_exists.
  cbn [bind]. rewrite Hdir. cbn [bind fs log].
  rewrite bool_decide_eq_true_2 by (rewrite Hkey; eauto). reflexivity.
Qed.

(** X10.  Once assembly has produced a path, with a login name, a
    configuration text that the locale can encode, a free temporary name
    and room to write it, an existing host key and an [sshd] on the search
    path that the kernel accepts, the run ends in [sshd].  The file passed after [-f] is a new
    file of mode [0o600 & ~umask] whose content is the configuration
    rendered for the assembled path and the login name, in the locale
    encoding; apart from it the file system is as assembly left it; the
    host key passed after [-h] is the one in the state directory; and
    nothing was executed before. *)
Theorem main_runs_sshd (parsed_args : Namespace) (w w1 : World)
    (path : source) (user sshd : string) (data : list Byte.byte)
    (n : node) (m : Z) :
  make_authorized_keys sha3_256 env parsed_args w = Ok path w1 ->
  pw_name env = Some user ->
  which env "sshd" = Some sshd ->
  (forall t, can_exec env t sshd = true) ->
  locale_encode env (generate_sshd_config path user) = Some data ->
  (forall t, write_fault env t (tmp_name env (rng w1)) = None) ->
  fs w1 !! tmp_name env (rng w1) = None ->
  fs w1 !! host_key_path env = Some n ->
  fs w1 !! STATE_DIR env = Some (Dir m) ->
  exists w',
    main sha3_256 env parsed_args w = Replaced w'
    /\ fs w' =
         <[tmp_name env (rng w1) := File (Z.ldiff o600 (umask w1)) data]>
           (fs w1)
    /\ exists evs,
         trace w' =
           trace w1 ++ evs
           ++ [EvExecv sshd
                 ([Some sshd; Some "-Dp"; Some (str_port (ns_port parsed_args));
                   Some "-f"; Some (tmp_name env (rng w1));
                   Some "-h"; Some (path_join (STATE_DIR env) "host_ed25519_key")]
                  ++ (if ns_quiet parsed_args then [] else [Some "-e"]))]
         /\ Forall (fun e => is_exec e = false) evs.
Proof.
  intros Hmk Hpw Hwhich Hexec Henc Hfault Hfree Hkey Hdir.
  unfold main. cbn [bind]. rewrite Hmk.
  unfold get_username. rewrite Hpw. cbn [ret bind].
  rewrite (NamedTemporaryFile_first_free env w1 Hfree).
  unfold tmpfile_write_text. rewrite Henc. cbn [bind]. rewrite Hfault.
  unfold tmpfile_write. cbn [bind fs log set_fs].
  assert (Hne1 : tmp_name env (rng w1) <> host_key_path env) by congruence.
  assert (Hne2 : tmp_name env (rng w1) <> STATE_DIR env) by congruence.
  erewrite ensure_host_key_existing;
    [| cbn [fs set_fs log]; rewrite lookup_alter_ne, lookup_insert_ne by congruence;
       exact Hkey
     | cbn [fs set_fs log]; rewrite lookup_alter_ne, lookup_insert_ne by congruence;
       exact Hdir].
  unfold launch, sshd_argv, os_execv. rewrite Hwhich.
  destruct (ns_quiet parsed_args); cbn [bind emit]; rewrite Hexec;
    (eexists; split; [reflexivity|]; split;
     [ cbn [fs set_fs log]; apply map_eq; intros k;
       destruct (decide (k = tmp_name env (rng w1))) as [->|Hk];
       [ rewrite lookup_alter_eq, !lookup_insert_eq; reflexivity
       | rewrite lookup_alter_ne, !lookup_insert_ne by congruence; reflexivity ]
     | ]).
  - exists [EvMkstemp (tmp_name env (rng w1)); EvMkdir (STATE_DIR env) o700;
            EvStat (host_key_path env)].
    split; [|repeat constructor].
    cbn [trace log set_fs set_rng]. now rewrite <- !app_assoc.
  - eexists [EvMkstemp (tmp_name env (rng w1)); EvMkdir (STATE_DIR env) o700;
             EvStat (host_key_path env); EvPrintArgv _; EvPrint _].
    split; [|repeat constructor].
    cbn [trace log set_fs set_rng]. now rewrite <- !app_assoc.
Qed.

(** ** A merge that meets a missing file *)




(** ** The order of the sources, and the GitHub shorthand *)

(** X2.  Whatever the order of the flags on the command line, the
    resolved sources are the [--file] values, then the cache entries of the
    [--url] values, then those of the [--github] users, each in the order
    given; none is dropped, so a source given twice is there twice. *)
Theorem resolve_sources_order (parsed_args : Namespace)
    (w w' : World) (srcs : list source) :
  resolve_sources sha3_256 env parsed_args w = Ok srcs w' ->
  srcs =
    map SrcStr (or_empty (ns_file parsed_args))
    ++ map (fun u => SrcPath (path_join (path_join (STATE_DIR env) "pubkeys")
                                (sha3_256 u)))
         (or_empty (ns_url parsed_args))
    ++ map (fun user =>
              SrcPath (path_join (path_join (STATE_DIR env) "pubkeys")
                         (sha3_256 (GITHUB_KEYS_ENDPOINT user))))
         (or_empty (ns_github parsed_args))
  /\ length srcs =
       (length (or_empty (ns_file parsed_args))
        + length (or_empty (ns_url parsed_args))
        + length (or_empty (ns_github parsed_args)))%nat.
Proof.
  intros Hrun. apply resolve_sources_ok in Hrun. subst srcs.
  unfold all_urls, cache_file_path.
  rewrite map_app, map_map. split; [reflexivity|].
  rewrite !length_app, !length_map. lia.
Qed.

(** X3.  [--github USER] is exactly [--url https://github.com/USER.keys]
    placed after the explicit URLs: a run with GitHub users and the run in
    which they are replaced by those URLs are the same run. *)
Theorem main_github_is_url (parsed_args : Namespace) (w : World) :
  main sha3_256 env parsed_args w =
  main sha3_256 env
    {| ns_file := ns_file parsed_args;
       ns_url := Some (or_empty (ns_url parsed_args)
                       ++ map (fun user => "https://github.com/" +:+ user
                                           +:+ ".keys")
                            (or_empty (ns_github parsed_args)));
       ns_github := None;
       ns_port := ns_port parsed_args;
       ns_quiet := ns_quiet parsed_args |} w.
Proof.
  unfold main, make_authorized_keys, resolve_sources, launch, sshd_argv,
    all_urls.
  cbn [ns_file ns_url ns_github ns_port ns_quiet or_empty map].
  now rewrite app_nil_r.
Qed.

Lemma append_inj_r (a b s : string) : a +:+ s = b +:+ s -> a = b.
Proof.
  revert b. induction a as [|c a IH]; intros [|d b] H.
  - reflexivity.
  - apply (f_equal String.length) in H.
    rewrite !length_append_str in H. cbn [String.length] in H. lia.
  - apply (f_equal String.length) in H.
    rewrite !length_append_str in H. cbn [String.length] in H. lia.
  - change (String c (a +:+ s) = String d (b +:+ s)) in H.
    injection H as -> H. f_equal. now apply IH.
Qed.

(** X12.  Two GitHub users never share a keys URL: the URL determines
    the user name. *)
Theorem GITHUB_KEYS_ENDPOINT_inj (user1 user2 : string) :
  GITHUB_KEYS_ENDPOINT user1 = GITHUB_KEYS_ENDPOINT user2 -> user1 = user2.
Proof.
  unfold GITHUB_KEYS_ENDPOINT. intros H.
  apply (inj (String.app "https://github.com/")) in H.
  now apply append_inj_r in H.
Qed.

(** ** The cache directory *)

Lemma make_parents_blocked (above : list string) (mask : Z) :
  forall (f : gmap string node) (a : string) (m : Z) (data : list Byte.byte),
    In a above -> f !! a = Some (File m data) ->
    make_parents above mask f = None.
Proof.
  induction above as [|b rest IH]; intros f a m data Hin Ha; [destruct Hin|].
  cbn [make_parents]. destruct (f !! b) as [[mb db|mb]|] eqn:Hb.
  - reflexivity.
  - destruct Hin as [-> | Hin]; [congruence|]. eapply IH; eassumption.
  - destruct Hin as [-> | Hin]; [congruence|].
    eapply IH; [exact Hin|].
    rewrite lookup_insert_ne; [exact Ha|]. intros ->. congruence.
Qed.

(** X14.  [ensure_cache_dir] returns [STATE_DIR / pubkeys], and when it
    returns, that path is a directory.  The only other paths it can have
    changed are directories above it that did not exist, now made with
    mode [0o777 & ~umask], while the cache directory itself is made with
    [0o700 & ~umask].  A directory that was already there is left as it
    is, whatever its mode, and calling again changes nothing.  A regular
    file at that path makes it raise [FileExistsError], and a regular file
    above it [NotADirectoryError], nothing being created. *)
Theorem ensure_cache_dir_spec (w : World) :
  (forall d w1,
      ensure_cache_dir env w = Ok d w1 ->
      d = path_join (STATE_DIR env) "pubkeys"
      /\ (exists m, fs w1 !! d = Some (Dir m))
      /\ (forall k,
            fs w1 !! k = fs w !! k
            \/ (fs w !! k = None
                /\ ((k = d /\ fs w1 !! k = Some (Dir (Z.ldiff o700 (umask w))))
                    \/ (In k (ancestors d)
                        /\ fs w1 !! k
                           = Some (Dir (Z.ldiff o777 (umask w)))))))
      /\ (forall m, fs w !! d = Some (Dir m) -> fs w1 = fs w)
      /\ exists w2, ensure_cache_dir env w1 = Ok d w2 /\ fs w2 = fs w1) /\
  (forall m data,
      fs w !! path_join (STATE_DIR env) "pubkeys" = Some (File m data) ->
      ensure_cache_dir env w
        = Raise (FileExistsError (path_join (STATE_DIR env) "pubkeys"))
            (log (EvMkdir (path_join (STATE_DIR env) "pubkeys") o700) w)) /\
  (forall a m data,
      fs w !! path_join (STATE_DIR env) "pubkeys" = None ->
      In a (ancestors (path_join (STATE_DIR env) "pubkeys")) ->
      fs w !! a = Some (File m data) ->
      ensure_cache_dir env w
        = Raise (NotADirectoryError (path_join (STATE_DIR env) "pubkeys"))
            (log (EvMkdir (path_join (STATE_DIR env) "pubkeys") o700) w)).
Proof.
  split; [|split].
  - intros d w1. unfold ensure_cache_dir. cbn [bind ret].
    destruct (mkdir (path_join (STATE_DIR env) "pubkeys") o700 w)
      as [[] w0|e w0|w0] eqn:Hmk; try discriminate.
    intros [= <- <-].
    destruct (mkdir_ok _ _ _ _ Hmk) as (_ & _ & Hnew & Hold & _ & Hall).
    assert (Hdir : exists m,
      fs w0 !! path_join (STATE_DIR env) "pubkeys" = Some (Dir m)).
    { destruct (fs w !! path_join (STATE_DIR env) "pubkeys")
        as [[m data|m]|] eqn:Hd.
      - unfold mkdir in Hmk. rewrite Hd in Hmk. discriminate.
      - rewrite Hold by eauto. eauto.
      - rewrite Hnew by reflexivity. eauto. }
    split; [reflexivity|]. split; [exact Hdir|]. split; [exact Hall|].
    split; [intros m Hm; apply Hold; eauto|].
    destruct Hdir as [m Hm]. unfold mkdir. rewrite Hm.
    eexists. split; reflexivity.
  - intros m data Hd. unfold ensure_cache_dir, mkdir. cbn [bind].
    now rewrite Hd.
  - intros a m data Hd Hin Ha. unfold ensure_cache_dir, mkdir. cbn [bind].
    rewrite Hd. now rewrite (make_parents_blocked _ _ _ a m data Hin Ha).
Qed.

End Behaviour.

(** ** The further properties on the example machine *)


Lemma resolve_sources_order_witness :
  length [SrcPath (path_join Demo.cache_dir (Demo.digest Demo.url));
          SrcPath (path_join Demo.cache_dir (Demo.digest Demo.url2))]
  = (0 + 2 + 0)%nat.
Proof.
  destruct (resolve_sources_order Demo.digest Demo.env Demo.args_two_urls
              Demo.empty_disk Demo.after_two
              [SrcPath (path_join Demo.cache_dir (Demo.digest Demo.url));
               SrcPath (path_join Demo.cache_dir (Demo.digest Demo.url2))])
    as [_ Hlen].
  - vm_compute. reflexivity.
  - exact Hlen.
Defined.

Lemma resolve_sources_warm_cache_witness :
  exists w',
    resolve_sources Demo.digest Demo.offline Demo.args_url Demo.after_resolve
    = Ok [SrcPath (path_join Demo.cache_dir (Demo.digest Demo.url))] w'
    /\ fs w' = fs Demo.after_resolve
    /\ fetches w' = fetches Demo.after_resolve.
Proof.
  destruct (resolve_sources_warm_cache Demo.digest Demo.offline Demo.args_url
              Demo.after_resolve o700) as (w' & Hrun & Hfs & _ & Hfe).
  - vm_compute. reflexivity.
  - intros u [<- | []]. vm_compute. eexists. reflexivity.
  - exists w'. split; [exact Hrun|]. split; [exact Hfs | exact Hfe].
Defined.

Lemma make_authorized_keys_keeps_files_witness :
  fs (final_world (make_authorized_keys Demo.digest Demo.env
                     (Demo.args_files ["fileA"; "fileB"]) Demo.two_files))
    !! "fileA"
  = Some (File o644 Demo.bytes_a).
Proof.
  apply (make_authorized_keys_keeps_files Demo.digest Demo.env).
  vm_compute. reflexivity.
Defined.



Lemma resolve_url_stores_text_witness :
  exists w',
    resolve_url Demo.digest Demo.env Demo.cache_dir Demo.url Demo.empty_disk
    = Ok (SrcPath (path_join Demo.cache_dir (Demo.digest Demo.url))) w'
    /\ read_bytes (SrcPath (path_join Demo.cache_dir (Demo.digest Demo.url))) w'
       = Ok (list_byte_of_string Demo.key_text)
           (log (EvRead (path_join Demo.cache_dir (Demo.digest Demo.url))) w').
Proof.
  destruct (resolve_url_stores_text Demo.digest Demo.env Demo.cache_dir
              Demo.url Demo.empty_disk [] 200 Demo.key_text
              (list_byte_of_string Demo.key_text))
    as (w' & Hrun & _ & Hread).
  - vm_compute. reflexivity.
  - reflexivity.
  - lia.
  - reflexivity.
  - reflexivity.
  - exists w'. split; [exact Hrun | exact Hread].
Defined.

Lemma main_runs_sshd_witness :
  exists w',
    main Demo.digest Demo.env (Demo.args_files ["fileA"]) Demo.with_host_key
    = Replaced w'.
Proof.
  destruct (main_runs_sshd Demo.digest Demo.env (Demo.args_files ["fileA"])
              Demo.with_host_key Demo.with_host_key (SrcStr "fileA") "alice"
              "/usr/sbin/sshd"
              (list_byte_of_string
                 (generate_sshd_config (SrcStr "fileA") "alice"))
              (File o600 (list_byte_of_string "PRIV")) o700)
    as (w' & Hrun & _).
  - reflexivity.
  - reflexivity.
  - reflexivity.
  - reflexivity.
  - reflexivity.
  - reflexivity.
  - vm_compute. reflexivity.
  - vm_compute. reflexivity.
  - vm_compute. reflexivity.
  - exists w'. exact Hrun.
Defined.

Lemma GITHUB_KEYS_ENDPOINT_inj_witness :
  "alice" = "alice".
Proof.
  apply (GITHUB_KEYS_ENDPOINT_inj "alice" "alice"). reflexivity.
Defined.


Lemma ensure_cache_dir_spec_witness :
  exists w2,
    ensure_cache_dir Demo.env
      (final_world (ensure_cache_dir Demo.env Demo.empty_disk))
    = Ok (path_join (STATE_DIR Demo.env) "pubkeys") w2
    /\ fs w2 = fs (final_world (ensure_cache_dir Demo.env Demo.empty_disk)).
Proof.
  destruct (ensure_cache_dir_spec Demo.env Demo.empty_disk) as (H & _ & _).
  destruct (H (path_join (STATE_DIR Demo.env) "pubkeys")
              (final_world (ensure_cache_dir Demo.env Demo.empty_disk)))
    as (_ & _ & _ & _ & w2 & Hrun & Hfs).
  - vm_compute. reflexivity.
  - exists w2. split; [exact Hrun | exact Hfs].
Defined.
